(** * The pipeline driver [main.py], embedded in Rocq

    [go] reads a nested configuration, exports two environment variables,
    turns the [main.steps] directive into the list [active_steps], and then,
    inside a [tempfile.TemporaryDirectory()] block, runs six guarded blocks,
    one per stage, each of which builds an invocation and hands it to
    [subprocess.run(..., check=True)] or [mlflow.run].

    The embedding is a state-and-exception monad over an explicit [world]
    (process environment, working directories, file system) that also
    collects the log of stage invocations.  What lies outside [main.py]
    (the outcome of an invoked stage, the name picked by [mkdtemp], the text
    produced by [json.dump], [str()] of a non-string value) is the
    [Runtime] interface. *)

From Stdlib Require Import ZArith String Ascii List.
From stdpp Require Import gmap strings list fin_maps sorting pretty.

Local Open Scope string_scope.
Local Open Scope list_scope.
#[local] Set Warnings "-register-all".

(** ** Python strings *)

Module Str.

(** [s.split(sep)] for a one-character separator: never empty, and
    [''.split(',') = ['']]. *)
Fixpoint split (sep : ascii) (s : string) : list string :=
  match s with
  | EmptyString => [EmptyString]
  | String c r =>
      if Ascii.eqb c sep then EmptyString :: split sep r
      else match split sep r with
           | h :: t => String c h :: t
           | [] => [String c EmptyString]
           end
  end.

Definition startswith (s p : string) : bool := String.prefix p s.

Fixpoint endswith_char (s : string) (c : ascii) : bool :=
  match s with
  | EmptyString => false
  | String a EmptyString => Ascii.eqb a c
  | String _ r => endswith_char r c
  end.

(** [sep * n] *)
Fixpoint repeat (sep : string) (n : nat) : string :=
  match n with
  | O => ""
  | S k => sep +:+ repeat sep k
  end.

End Str.

(** ** [posixpath] *)

Module PosixPath.

Definition isabs (path : string) : bool := Str.startswith path "/".

(** One round of the loop of [posixpath.join]. *)
Definition join_step (path b : string) : string :=
  if Str.startswith b "/" then b
  else if String.eqb path "" || Str.endswith_char path "/" then path +:+ b
  else path +:+ "/" +:+ b.

Definition join (a : string) (p : list string) : string :=
  fold_left join_step p a.

(** One round of the loop of [posixpath.normpath] over the components. *)
Definition normpath_step (initial_slashes : nat) (new_comps : list string)
    (comp : string) : list string :=
  if String.eqb comp "" || String.eqb comp "." then new_comps
  else if negb (String.eqb comp "..")
          || (Nat.eqb initial_slashes 0 && bool_decide (new_comps = []))
          || bool_decide (last new_comps = Some "..")
  then new_comps ++ [comp]
  else removelast new_comps.

Definition normpath (path : string) : string :=
  if String.eqb path "" then "."
  else
    let initial_slashes :=
      if Str.startswith path "/" then
        if Str.startswith path "//" && negb (Str.startswith path "///")
        then 2%nat else 1%nat
      else 0%nat in
    let comps :=
      fold_left (normpath_step initial_slashes) (Str.split "/" path) [] in
    let path' := Str.repeat "/" initial_slashes +:+ String.concat "/" comps in
    if String.eqb path' "" then "." else path'.

(** [os.path.abspath(path)] in a process whose working directory is [cwd]. *)
Definition abspath (cwd path : string) : string :=
  normpath (if isabs path then path else join cwd [path]).

(** [p] is the directory [d] itself or lies below it. *)
Definition inside (d p : string) : bool :=
  String.eqb p d || Str.startswith p (d +:+ "/").

End PosixPath.

(** ** Configuration values

    The values an [omegaconf.DictConfig] holds.  A float is kept as its
    literal: the driver forwards it and never computes with it.  A mapping
    keeps the order of its items, which [json.dump] follows. *)

Inductive value : Type :=
| VNone
| VBool (b : bool)
| VInt (z : Z)
| VFloat (literal : string)
| VStr (s : string)
| VList (elems : list value)
| VDict (items : list (string * value)).

(** ** What a stage is invoked with *)

Inductive invocation : Type :=
| SubprocessRun (command : list string)
| MlflowRun (uri entry_point : string) (parameters : list (string * value)).

(** ** Exceptions that leave [go] *)

Inductive exn : Type :=
| KeyError (key : string)
| TypeError
| AttributeError
| StageFailure (inv : invocation).

Inductive result (A : Type) : Type :=
| Ok (a : A)
| Raise (e : exn).
Arguments Ok {A} a.
Arguments Raise {A} e.

(** First value bound to [k]; the keys of a mapping are distinct. *)
Fixpoint assoc (k : string) (items : list (string * value)) : option value :=
  match items with
  | [] => None
  | (k', v) :: rest => if String.eqb k k' then Some v else assoc k rest
  end.

(** [v[k]] for a string [k]: a missing key of a mapping is a [KeyError];
    a value that is no mapping cannot be indexed by a string (the error
    OmegaConf raises for a list is counted as a [TypeError] too). *)
Definition getitem (v : value) (k : string) : result value :=
  match v with
  | VDict items =>
      match assoc k items with
      | Some x => Ok x
      | None => Raise (KeyError k)
      end
  | _ => Raise TypeError
  end.

(** [config[a][b]], the only way [go] reads its configuration. *)
Definition getitem2 (config : value) (a b : string) : result value :=
  match getitem config a with
  | Ok section => getitem section b
  | Raise e => Raise e
  end.

(** [v.items()] *)
Definition dict_items (v : value) : result (list (string * value)) :=
  match v with
  | VDict items => Ok items
  | _ => Raise AttributeError
  end.

(** ** The catalog of stages *)

Definition _steps : list string :=
  [ "download";
    "basic_cleaning";
    "data_check";
    "data_split";
    "train_random_forest";
    "test_regression_model" ].

(** The six guarded blocks of [go], in program order. *)
Inductive stage : Type :=
| Download
| BasicCleaning
| DataCheck
| DataSplit
| TrainRandomForest
| TestRegressionModel.

#[global] Instance stage_eq_dec : EqDecision stage.
Proof. solve_decision. Defined.

(** The string literal each block tests [active_steps] for. *)
Definition stage_name (s : stage) : string :=
  match s with
  | Download => "download"
  | BasicCleaning => "basic_cleaning"
  | DataCheck => "data_check"
  | DataSplit => "data_split"
  | TrainRandomForest => "train_random_forest"
  | TestRegressionModel => "test_regression_model"
  end.

Definition all_stages : list stage :=
  [Download; BasicCleaning; DataCheck; DataSplit; TrainRandomForest;
   TestRegressionModel].

(** Position of a block in the program text. *)
Definition position (s : stage) : nat :=
  match s with
  | Download => 0
  | BasicCleaning => 1
  | DataCheck => 2
  | DataSplit => 3
  | TrainRandomForest => 4
  | TestRegressionModel => 5
  end.

(** [steps_par.split(",") if steps_par != "all" else _steps] *)
Definition select_steps (steps_par : value) : result (list string) :=
  match steps_par with
  | VStr s => if negb (String.eqb s "all") then Ok (Str.split "," s) else Ok _steps
  | _ => Raise AttributeError
  end.

(** ** The world the driver runs in *)

Record filesystem : Type := Filesystem {
  dirs : gset string;
  files : gmap string string
}.

Record world : Type := World {
  environ : gmap string string;
  cwd : string;
  original_cwd : string;
  fs : filesystem
}.

(** One call of [subprocess.run] or [mlflow.run]: the block that made it,
    what it was called with, the world it was called in, and whether it
    reported success. *)
Record event : Type := Event {
  ev_stage : stage;
  ev_inv : invocation;
  ev_world : world;
  ev_ok : bool
}.

Class Runtime : Type := {
  (** the fresh directory name [tempfile.mkdtemp] picks *)
  mkdtemp : world -> string;
  (** outcome of an invoked stage and what it leaves on the file system *)
  execute : invocation -> world -> bool * filesystem;
  (** text [json.dump] writes for a dict, and whether it finished without
      raising *)
  json_dump : list (string * value) -> string * bool;
  (** [str(v)] for a value that is not a string *)
  py_str : value -> string
}.

(** ** The monad *)

Record run (A : Type) : Type := Run {
  res : result A;
  log : list event;
  final : world
}.
Arguments Run {A} res log final.
Arguments res {A} r.
Arguments log {A} r.
Arguments final {A} r.

Definition M (A : Type) : Type := world -> run A.

Definition ret {A} (a : A) : M A := fun w => Run (Ok a) [] w.

Definition raise {A} (e : exn) : M A := fun w => Run (Raise e) [] w.

Definition bind {A B} (m : M A) (f : A -> M B) : M B :=
  fun w =>
    let r := m w in
    match res r with
    | Ok a =>
        let r' := f a (final r) in
        Run (res r') (log r ++ log r') (final r')
    | Raise e => Run (Raise e) (log r) (final r)
    end.

Notation "x <- m ;; k" := (bind m (fun x => k))
  (at level 100, m at next level, right associativity).
Notation "m ;;; k" := (bind m (fun _ => k))
  (at level 100, right associativity).

Definition lift {A} (r : result A) : M A := fun w => Run r [] w.

(** [if c: m] *)
Definition when (c : bool) (m : M unit) : M unit := if c then m else ret tt.

Definition set_fs (w : world) (f : filesystem) : world :=
  World (environ w) (cwd w) (original_cwd w) f.

(** [os.environ[k] = v]; only a [str] is accepted.  (A string that holds
    a NUL character, which [os.environ] refuses, is not told apart from the
    others.) *)
Definition setenv (k : string) (v : value) : M unit :=
  match v with
  | VStr s =>
      fun w => Run (Ok tt) []
                 (World (<[k := s]> (environ w)) (cwd w) (original_cwd w) (fs w))
  | _ => raise TypeError
  end.

Definition getcwd : M string := fun w => Run (Ok (cwd w)) [] w.

Definition get_original_cwd : M string := fun w => Run (Ok (original_cwd w)) [] w.

(** The world with file [path] holding [text] (created or overwritten). *)
Definition put (path text : string) (w : world) : world :=
  set_fs w (Filesystem (dirs (fs w)) (<[path := text]> (files (fs w)))).

Definition write_file (path text : string) : M unit :=
  fun w => Run (Ok tt) [] (put path text w).

(** [shutil.rmtree(d)] *)
Definition rmtree (d : string) (f : filesystem) : filesystem :=
  Filesystem
    (filter (fun p => PosixPath.inside d p = false) (dirs f))
    (filter (fun kv : string * string => PosixPath.inside d kv.1 = false) (files f)).

Section Driver.

Context {rt : Runtime}.

(** Run a stage; a failure is the exception of [check=True] or of
    [mlflow.run]. *)
Definition invoke (s : stage) (inv : invocation) : M unit :=
  fun w =>
    let out := execute inv w in
    Run (if out.1 then Ok tt else Raise (StageFailure inv))
        [Event s inv w out.1]
        (set_fs w out.2).

(** [with tempfile.TemporaryDirectory() as tmp_dir: body]: the directory
    is made on entry and removed on exit, whether [body] returns or
    raises; an exception of [body] goes on after the removal. *)
Definition with_TemporaryDirectory {A} (body : string -> M A) : M A :=
  fun w =>
    let tmp_dir := mkdtemp w in
    let w1 := set_fs w (Filesystem ({[tmp_dir]} ∪ dirs (fs w)) (files (fs w))) in
    let r := body tmp_dir w1 in
    Run (res r) (log r) (set_fs (final r) (rmtree tmp_dir (fs (final r)))).

(** [f"{v}"] *)
Definition format_value (v : value) : string :=
  match v with
  | VStr s => s
  | _ => py_str v
  end.

Definition config_get (config : value) (a b : string) : M value :=
  lift (getitem2 config a b).


(** ** The six blocks: building the invocation

    Each [resolve_*] evaluates, in Python's order, everything a block
    evaluates before it calls [subprocess.run] or [mlflow.run]. *)

Definition resolve_download (config : value) : M invocation :=
  sample <- config_get config "etl" "sample" ;;
  match sample with
  | VStr sample =>
      ret (SubprocessRun
             [ "python"; "components/get_data/manual.py";
               "--sample"; sample;
               "--artifact_name"; "sample.csv";
               "--artifact_type"; "raw_data";
               "--artifact_description"; "Raw file as downloaded" ])
  | _ => raise TypeError  (* an argv entry that is not a str *)
  end.

Definition resolve_basic_cleaning (config : value) : M invocation :=
  root <- get_original_cwd ;;
  let basic_cleaning_path := PosixPath.join root ["src"; "basic_cleaning"] in
  min_price <- config_get config "etl" "min_price" ;;
  max_price <- config_get config "etl" "max_price" ;;
  ret (MlflowRun basic_cleaning_path "main"
         [ ("input_artifact", VStr "sample.csv:latest");
           ("output_artifact", VStr "clean_sample.csv");
           ("output_type", VStr "clean_sample");
           ("output_description", VStr "Data with outliers and null values removed");
           ("min_price", min_price);
           ("max_price", max_price) ]).

Definition resolve_data_check (config : value) : M invocation :=
  root <- get_original_cwd ;;
  let data_check_path := PosixPath.join root ["src"; "data_check"] in
  kl_threshold <- config_get config "data_check" "kl_threshold" ;;
  min_price <- config_get config "data_check" "min_price" ;;
  max_price <- config_get config "data_check" "max_price" ;;
  ret (MlflowRun data_check_path "main"
         [ ("csv", VStr "clean_sample.csv:latest");
           ("ref", VStr "clean_sample.csv:reference");
           ("kl_threshold", kl_threshold);
           ("min_price", min_price);
           ("max_price", max_price) ]).

Definition resolve_data_split (config : value) : M invocation :=
  components_repository <- config_get config "main" "components_repository" ;;
  test_size <- config_get config "modeling" "test_size" ;;
  random_seed <- config_get config "modeling" "random_seed" ;;
  stratify_by <- config_get config "modeling" "stratify_by" ;;
  ret (MlflowRun (format_value components_repository +:+ "/train_val_test_split") "main"
         [ ("input", VStr "clean_sample.csv:latest");
           ("test_size", test_size);
           ("random_seed", random_seed);
           ("stratify_by", stratify_by) ]).

Definition resolve_train_random_forest (config : value) : M invocation :=
  here <- getcwd ;;
  let rf_config := PosixPath.abspath here "rf_config.json" in
  (* open(rf_config, "w+") creates or truncates the file *)
  write_file rf_config "" ;;;
  random_forest <- config_get config "modeling" "random_forest" ;;
  items <- lift (dict_items random_forest) ;;
  let dumped := json_dump items in
  write_file rf_config dumped.1 ;;;
  (if dumped.2 then ret tt else raise TypeError) ;;;
  root <- get_original_cwd ;;
  val_size <- config_get config "modeling" "val_size" ;;
  random_seed <- config_get config "modeling" "random_seed" ;;
  stratify_by <- config_get config "modeling" "stratify_by" ;;
  max_tfidf_features <- config_get config "modeling" "max_tfidf_features" ;;
  ret (MlflowRun (PosixPath.join root ["src"; "train_random_forest"]) "main"
         [ ("trainval_artifact", VStr "trainval_data.csv:latest");
           ("val_size", val_size);
           ("random_seed", random_seed);
           ("stratify_by", stratify_by);
           ("rf_config", VStr rf_config);
           ("max_tfidf_features", max_tfidf_features);
           ("output_artifact", VStr "random_forest_export") ]).

Definition resolve_test_regression_model (config : value) : M invocation :=
  components_repository <- config_get config "main" "components_repository" ;;
  ret (MlflowRun (format_value components_repository +:+ "/test_regression_model") "main"
         [ ("mlflow_model", VStr "random_forest_export:prod");
           ("test_dataset", VStr "test_data.csv:latest") ]).

(** ** [go] *)

(** The body of the [with] block: six [if name in active_steps:] blocks.
    The [logger.info] calls that open three of them are left out: what
    they write, and where, is up to the logging handlers, which are set up
    outside [main.py]. *)
Definition body (config : value) (active_steps : list string) : M unit :=
  when (bool_decide ("download" ∈ active_steps))
    (inv <- resolve_download config ;; invoke Download inv) ;;;
  when (bool_decide ("basic_cleaning" ∈ active_steps))
    (inv <- resolve_basic_cleaning config ;; invoke BasicCleaning inv) ;;;
  when (bool_decide ("data_check" ∈ active_steps))
    (inv <- resolve_data_check config ;; invoke DataCheck inv) ;;;
  when (bool_decide ("data_split" ∈ active_steps))
    (inv <- resolve_data_split config ;; invoke DataSplit inv) ;;;
  when (bool_decide ("train_random_forest" ∈ active_steps))
    (inv <- resolve_train_random_forest config ;; invoke TrainRandomForest inv) ;;;
  when (bool_decide ("test_regression_model" ∈ active_steps))
    (inv <- resolve_test_regression_model config ;; invoke TestRegressionModel inv).

Definition go (config : value) : M unit :=
  project_name <- config_get config "main" "project_name" ;;
  setenv "WANDB_PROJECT" project_name ;;;
  experiment_name <- config_get config "main" "experiment_name" ;;
  setenv "WANDB_RUN_GROUP" experiment_name ;;;
  steps_par <- config_get config "main" "steps" ;;
  active_steps <- lift (select_steps steps_par) ;;
  with_TemporaryDirectory (fun tmp_dir => body config active_steps).

(** ** Notions the statements use *)

(** A block on its own: build the invocation, then invoke. *)
Definition resolve (config : value) (s : stage) : M invocation :=
  match s with
  | Download => resolve_download config
  | BasicCleaning => resolve_basic_cleaning config
  | DataCheck => resolve_data_check config
  | DataSplit => resolve_data_split config
  | TrainRandomForest => resolve_train_random_forest config
  | TestRegressionModel => resolve_test_regression_model config
  end.

Definition step (config : value) (s : stage) : M unit :=
  inv <- resolve config s ;; invoke s inv.

(** The blocks of a list of stages, one after the other, up to the first
    exception. *)
Fixpoint run_stages (config : value) (l : list stage) : M unit :=
  match l with
  | [] => ret tt
  | s :: l' => step config s ;;; run_stages config l'
  end.

(** Lines 28 to 33 of [go] on their own: everything before the [with]. *)
Definition prelude (config : value) : M (list string) :=
  project_name <- config_get config "main" "project_name" ;;
  setenv "WANDB_PROJECT" project_name ;;;
  experiment_name <- config_get config "main" "experiment_name" ;;
  setenv "WANDB_RUN_GROUP" experiment_name ;;;
  steps_par <- config_get config "main" "steps" ;;
  lift (select_steps steps_par).

(** The [with] block of [go]. *)
Definition pipeline (config : value) (active_steps : list string) : M unit :=
  with_TemporaryDirectory (fun tmp_dir => body config active_steps).

(** How a list of blocks unfolds from a world, as a relation: a block
    either fails while building its invocation, or invokes its stage and
    stops on failure, or succeeds and hands over to the rest. *)
Inductive exec (config : value) : list stage -> world -> run unit -> Prop :=
| exec_done w :
    exec config [] w (Run (Ok tt) [] w)
| exec_unresolved s l w e w1 :
    resolve config s w = Run (Raise e) [] w1 ->
    exec config (s :: l) w (Run (Raise e) [] w1)
| exec_failed s l w inv w1 :
    resolve config s w = Run (Ok inv) [] w1 ->
    (execute inv w1).1 = false ->
    exec config (s :: l) w
      (Run (Raise (StageFailure inv)) [Event s inv w1 false]
           (set_fs w1 (execute inv w1).2))
| exec_next s l w inv w1 r :
    resolve config s w = Run (Ok inv) [] w1 ->
    (execute inv w1).1 = true ->
    exec config l (set_fs w1 (execute inv w1).2) r ->
    exec config (s :: l) w
      (Run (res r) (Event s inv w1 true :: log r) (final r)).

(** What the training block leaves in the hyperparameter file: the text
    [json.dump] wrote, or nothing when the block raised before writing. *)
Definition rf_text (config : value) : string :=
  match getitem2 config "modeling" "random_forest" with
  | Ok random_forest =>
      match dict_items random_forest with
      | Ok items => (json_dump items).1
      | Raise _ => ""
      end
  | Raise _ => ""
  end.

End Driver.

(** The blocks whose test [name in active_steps] holds, in program order. *)
Definition selected (active_steps : list string) : list stage :=
  filter (fun s => stage_name s ∈ active_steps) all_stages.

(** Two configurations that differ at most in [main.steps]. *)
Definition agree_except_steps (c1 c2 : value) : Prop :=
  forall a b, (a, b) <> ("main", "steps") -> getitem2 c1 a b = getitem2 c2 a b.

(** An action that invokes nothing. *)
Definition silent {A} (m : M A) : Prop := forall w, log (m w) = [].

(** An action that leaves a component of the world as it found it. *)
Definition keeps {A X} (proj : world -> X) (m : M A) : Prop :=
  forall w, proj (final (m w)) = proj w.

(** An action whose outcome depends on the world only through the two
    working directories. *)
Definition stable {A} (m : M A) : Prop :=
  forall w w', cwd w' = cwd w -> original_cwd w' = original_cwd w ->
               res (m w') = res (m w).

(** Stages in the order of the program text. *)
Definition ascending (l : list stage) : Prop :=
  StronglySorted (fun a b => position a < position b) l.

(** The value of parameter [name] in an [mlflow.run] call. *)
Definition parameter (inv : invocation) (name : string) : option value :=
  match inv with
  | MlflowRun _ _ parameters => assoc name parameters
  | SubprocessRun _ => None
  end.

(** ** A concrete runtime, configuration and world for the examples *)

Module Demo.

Definition quote : string := String (ascii_of_nat 34) EmptyString.

(** [str(v)] on plain scalars. *)
Definition str (v : value) : string :=
  match v with
  | VNone => "None"
  | VBool true => "True"
  | VBool false => "False"
  | VInt z => pretty z
  | VFloat literal => literal
  | VStr s => s
  | VList _ | VDict _ => "<container>"
  end.

(** [json.dumps] of a plain scalar (strings without characters that need
    an escape); a nested [DictConfig] or [ListConfig] is not serializable. *)
Definition json_scalar (v : value) : option string :=
  match v with
  | VNone => Some "null"
  | VBool true => Some "true"
  | VBool false => Some "false"
  | VInt z => Some (pretty z)
  | VFloat literal => Some literal
  | VStr s => Some (quote +:+ s +:+ quote)
  | VList _ | VDict _ => None
  end.

(** The chunks [json.dump] writes for the items of a dict, up to the
    closing brace or to the first value it cannot serialize. *)
Fixpoint json_items (first : bool) (items : list (string * value)) : string * bool :=
  match items with
  | [] => ("}", true)
  | (k, v) :: rest =>
      let key := (if first then "" else ", ") +:+ quote +:+ k +:+ quote +:+ ": " in
      match json_scalar v with
      | Some t => let r := json_items false rest in (key +:+ t +:+ r.1, r.2)
      | None => (key, false)
      end
  end.

Definition dump (items : list (string * value)) : string * bool :=
  let r := json_items true items in ("{" +:+ r.1, r.2).

(** Every stage succeeds and touches no file. *)
Definition rt_ok : Runtime := {|
  mkdtemp := fun _ => "/tmp/tmpk3x9ab_q";
  execute := fun _ w => (true, fs w);
  json_dump := dump;
  py_str := str |}.

(** As [rt_ok], but the [basic_cleaning] project fails. *)
Definition rt_cleaning_fails : Runtime := {|
  mkdtemp := fun _ => "/tmp/tmpk3x9ab_q";
  execute := fun inv w =>
    match inv with
    | MlflowRun uri _ _ =>
        (negb (String.eqb uri "/home/user/project/src/basic_cleaning"), fs w)
    | SubprocessRun _ => (true, fs w)
    end;
  json_dump := dump;
  py_str := str |}.

(** As [rt_ok], but the download script exits with a non-zero status. *)
Definition rt_download_fails : Runtime := {|
  mkdtemp := fun _ => "/tmp/tmpk3x9ab_q";
  execute := fun inv w =>
    match inv with
    | MlflowRun _ _ _ => (true, fs w)
    | SubprocessRun _ => (false, fs w)
    end;
  json_dump := dump;
  py_str := str |}.

Definition random_forest : list (string * value) :=
  [ ("n_estimators", VInt 100);
    ("max_depth", VInt 15);
    ("min_samples_split", VInt 4);
    ("min_samples_leaf", VInt 3);
    ("n_jobs", VInt (-1));
    ("criterion", VStr "squared_error");
    ("max_features", VFloat "0.5");
    ("oob_score", VBool true) ].

(** A complete configuration whose [main.steps] is [steps]. *)
Definition config (steps : string) : value :=
  VDict
    [ ("main", VDict
         [ ("components_repository", VStr "https://example.org/components.git#components");
           ("project_name", VStr "nyc_airbnb");
           ("experiment_name", VStr "development");
           ("steps", VStr steps) ]);
      ("etl", VDict
         [ ("sample", VStr "data.csv");
           ("min_price", VInt 10);
           ("max_price", VInt 1000) ]);
      ("data_check", VDict
         [ ("kl_threshold", VFloat "0.2");
           ("min_price", VInt 10);
           ("max_price", VInt 1000) ]);
      ("modeling", VDict
         [ ("test_size", VFloat "0.2");
           ("val_size", VFloat "0.2");
           ("random_seed", VInt 42);
           ("stratify_by", VStr "neighbourhood_group");
           ("max_tfidf_features", VInt 5);
           ("random_forest", VDict random_forest) ]) ].

Definition w0 : world :=
  World ∅ "/home/user/project/outputs/run1" "/home/user/project"
        (Filesystem {[ "/home/user/project/outputs/run1" ]} ∅).

(** The directory [rt_ok] hands out, where [go] leaves the hyperparameter
    file under [w0], and the world in which the training stage is invoked
    under the directive ["train_random_forest"]. *)
Definition tmp_dir : string := "/tmp/tmpk3x9ab_q".

Definition rf_config : string := "/home/user/project/outputs/run1/rf_config.json".

Definition w_train : world :=
  World (<["WANDB_RUN_GROUP" := "development"]>
           (<["WANDB_PROJECT" := "nyc_airbnb"]> ∅))
        "/home/user/project/outputs/run1" "/home/user/project"
        (Filesystem ({[ tmp_dir ]} ∪ {[ "/home/user/project/outputs/run1" ]})
                    (<[rf_config := (dump random_forest).1]>
                       (<[rf_config := ""]> ∅))).

Definition train_invocation : invocation :=
  MlflowRun "/home/user/project/src/train_random_forest" "main"
    [ ("trainval_artifact", VStr "trainval_data.csv:latest");
      ("val_size", VFloat "0.2");
      ("random_seed", VInt 42);
      ("stratify_by", VStr "neighbourhood_group");
      ("rf_config", VStr rf_config);
      ("max_tfidf_features", VInt 5);
      ("output_artifact", VStr "random_forest_export") ].

End Demo.

(** ** Further notions *)

(** The keys [config[a][b]] a block reads, in the order it reads them. *)
Definition reads (s : stage) : list (string * string) :=
  match s with
  | Download => [("etl", "sample")]
  | BasicCleaning => [("etl", "min_price"); ("etl", "max_price")]
  | DataCheck =>
      [("data_check", "kl_threshold"); ("data_check", "min_price");
       ("data_check", "max_price")]
  | DataSplit =>
      [("main", "components_repository"); ("modeling", "test_size");
       ("modeling", "random_seed"); ("modeling", "stratify_by")]
  | TrainRandomForest =>
      [("modeling", "random_forest"); ("modeling", "val_size");
       ("modeling", "random_seed"); ("modeling", "stratify_by");
       ("modeling", "max_tfidf_features")]
  | TestRegressionModel => [("main", "components_repository")]
  end.

(** An action that never raises the failure of a stage. *)
Definition plain {A} (m : M A) : Prop :=
  forall w inv, res (m w) <> Raise (StageFailure inv).

(** The value given for [flag] among the option-value pairs of a command
    line. *)
Fixpoint after_flag (flag : string) (args : list string) : option string :=
  match args with
  | f :: v :: rest => if String.eqb f flag then Some v else after_flag flag rest
  | _ => None
  end.

(** The value of option [flag] in a command [interpreter script options]. *)
Definition argument (inv : invocation) (flag : string) : option string :=
  match inv with
  | SubprocessRun (_ :: _ :: args) => after_flag flag args
  | _ => None
  end.

(** The world once lines 28 and 29 have run. *)
Definition run_identity (project_name experiment_name : string) (w : world) : world :=
  World (<["WANDB_RUN_GROUP" := experiment_name]>
           (<["WANDB_PROJECT" := project_name]> (environ w)))
        (cwd w) (original_cwd w) (fs w).

(** The world on entry to the body of the [with] block, and the file
    system its exit leaves. *)
Definition enter (tmp_dir : string) (w : world) : world :=
  set_fs w (Filesystem ({[tmp_dir]} ∪ dirs (fs w)) (files (fs w))).

Definition leave (tmp_dir : string) (w : world) : world :=
  set_fs w (rmtree tmp_dir (fs w)).

(** [c in s] for a character. *)
Fixpoint has_char (c : ascii) (s : string) : bool :=
  match s with
  | EmptyString => false
  | String a r => Ascii.eqb a c || has_char c r
  end.

Module Small.

(** A configuration that holds nothing but what the download block and
    the lines before the [with] read. *)
Definition config (steps : string) : value :=
  VDict
    [ ("main", VDict
         [ ("project_name", VStr "nyc_airbnb");
           ("experiment_name", VStr "development");
           ("steps", VStr steps) ]);
      ("etl", VDict [ ("sample", VStr "data.csv") ]) ].

(** No [experiment_name]. *)
Definition nameless : value :=
  VDict [ ("main", VDict [ ("project_name", VStr "nyc_airbnb");
                           ("steps", VStr "all") ]) ].


(** A random-forest mapping with a nested mapping in second place. *)
Definition nested_forest : value :=
  VDict [ ("modeling", VDict
             [ ("random_forest",
                VDict [ ("n_estimators", VInt 100);
                        ("tuning", VDict [("depth", VInt 3)]);
                        ("n_jobs", VInt (-1)) ]) ]) ].

End Small.

(** * Properties *)

Section Monad_laws.

Context {rt : Runtime}.

Lemma run_eta {A} (r : run A) : Run (res r) (log r) (final r) = r.
Proof. by destruct r. Qed.

Lemma bind_ret_l {A B} (a : A) (f : A -> M B) w : bind (ret a) f w = f a w.
Proof. unfold bind, ret; simpl. apply run_eta. Qed.

Lemma bind_ret_r (m : M unit) w : bind m (fun _ => ret tt) w = m w.
Proof.
  unfold bind, ret. destruct (m w) as [[[]|e] l w']; simpl; by rewrite ?app_nil_r.
Qed.

Lemma bind_ext {A B} (m : M A) (f g : A -> M B) :
  (forall a w, f a w = g a w) -> forall w, bind m f w = bind m g w.
Proof.
  intros Hfg w. unfold bind. destruct (res (m w)); [|done]. by rewrite Hfg.
Qed.

Lemma bind_assoc {A B C} (m : M A) (f : A -> M B) (g : B -> M C) w :
  bind (bind m f) g w = bind m (fun a => bind (f a) g) w.
Proof.
  unfold bind. destruct (m w) as [[a|e] l w']; simpl; [|done].
  destruct (f a w') as [[b|e] l' w'']; simpl; [|done].
  by rewrite app_assoc.
Qed.

End Monad_laws.

(** ** From the six guarded blocks to a list of stages *)

Section Blocks.

Context {rt : Runtime}.

Lemma guarded_blocks config (active : list string) l w :
  foldr (fun s k => when (bool_decide (stage_name s ∈ active)) (step config s) ;;; k)
        (ret tt) l w
  = run_stages config (filter (fun s => stage_name s ∈ active) l) w.
Proof.
  revert w. induction l as [|s l IH]; intros w; [done|].
  rewrite filter_cons. simpl foldr.
  destruct (decide (stage_name s ∈ active)) as [Hin|Hin].
  - rewrite bool_decide_true by done. by apply bind_ext.
  - rewrite bool_decide_false by done. simpl when. rewrite bind_ret_l. apply IH.
Qed.

Lemma body_run_stages config active w :
  body config active w = run_stages config (selected active) w.
Proof.
  unfold selected. rewrite <- guarded_blocks. unfold body, all_stages; simpl.
  do 5 (apply bind_ext; intros [] ?). symmetry. apply bind_ret_r.
Qed.

End Blocks.

(** ** Actions that invoke nothing, and what they leave alone *)

Section Frames.

Context {rt : Runtime}.

Lemma silent_ret {A} (a : A) : silent (ret a).
Proof. done. Qed.

Lemma silent_raise {A} e : silent (@raise A e).
Proof. done. Qed.

Lemma silent_lift {A} (r : result A) : silent (lift r).
Proof. done. Qed.

Lemma silent_bind {A B} (m : M A) (f : A -> M B) :
  silent m -> (forall a, silent (f a)) -> silent (bind m f).
Proof.
  intros Hm Hf w. unfold bind. destruct (res (m w)); simpl; [|apply Hm].
  by rewrite Hm, Hf.
Qed.

Lemma silent_setenv k v : silent (setenv k v).
Proof. by destruct v. Qed.

Lemma silent_write_file p t : silent (write_file p t).
Proof. done. Qed.

Lemma keeps_ret {A X} (proj : world -> X) (a : A) : keeps proj (ret a).
Proof. done. Qed.

Lemma keeps_raise {A X} (proj : world -> X) e : keeps proj (@raise A e).
Proof. done. Qed.

Lemma keeps_lift {A X} (proj : world -> X) (r : result A) : keeps proj (lift r).
Proof. done. Qed.

Lemma keeps_bind {A B X} (proj : world -> X) (m : M A) (f : A -> M B) :
  keeps proj m -> (forall a, keeps proj (f a)) -> keeps proj (bind m f).
Proof.
  intros Hm Hf w. unfold bind. destruct (res (m w)); simpl; [|apply Hm].
  by rewrite Hf, Hm.
Qed.

End Frames.

Create HintDb driver.
#[export] Hint Resolve silent_ret silent_raise silent_lift silent_setenv
  silent_write_file keeps_ret keeps_raise keeps_lift : driver.

(** Walks through a chain of binds and matches, closing the leaves with the
    hints of [driver]. *)
Ltac walk :=
  repeat first
    [ apply silent_bind; [|intros ?]
    | apply keeps_bind; [|intros ?]
    | match goal with
      | |- silent (match ?x with _ => _ end) => destruct x
      | |- keeps _ (match ?x with _ => _ end) => destruct x
      end
    | solve [auto with driver]
    | done ].

Section Resolve_facts.

Context {rt : Runtime}.

Lemma resolve_silent config s : silent (resolve config s).
Proof.
  destruct s; unfold resolve, resolve_download, resolve_basic_cleaning,
    resolve_data_check, resolve_data_split, resolve_train_random_forest,
    resolve_test_regression_model, config_get, getcwd, get_original_cwd; walk.
Qed.

Lemma resolve_keeps_cwd config s : keeps cwd (resolve config s).
Proof.
  destruct s; unfold resolve, resolve_download, resolve_basic_cleaning,
    resolve_data_check, resolve_data_split, resolve_train_random_forest,
    resolve_test_regression_model, config_get, getcwd, get_original_cwd; walk.
Qed.

Lemma resolve_keeps_original_cwd config s : keeps original_cwd (resolve config s).
Proof.
  destruct s; unfold resolve, resolve_download, resolve_basic_cleaning,
    resolve_data_check, resolve_data_split, resolve_train_random_forest,
    resolve_test_regression_model, config_get, getcwd, get_original_cwd; walk.
Qed.

Lemma resolve_keeps_dirs config s : keeps (fun w => dirs (fs w)) (resolve config s).
Proof.
  destruct s; unfold resolve, resolve_download, resolve_basic_cleaning,
    resolve_data_check, resolve_data_split, resolve_train_random_forest,
    resolve_test_regression_model, config_get, getcwd, get_original_cwd; walk.
Qed.

Lemma prelude_silent config : silent (prelude config).
Proof. unfold prelude, config_get; walk. Qed.

Lemma setenv_keeps {X} (proj : world -> X) k v :
  (forall e c o f, proj (World e c o f) = proj (World (<[k := match v with VStr s => s | _ => "" end]> e) c o f)) ->
  keeps proj (setenv k v).
Proof. intros H w. destruct v; try done. simpl. symmetry. destruct w. apply H. Qed.

Lemma prelude_keeps_fs config : keeps fs (prelude config).
Proof. unfold prelude, config_get; walk; by apply setenv_keeps. Qed.

Lemma prelude_keeps_cwd config : keeps cwd (prelude config).
Proof. unfold prelude, config_get; walk; by apply setenv_keeps. Qed.

Lemma prelude_keeps_original_cwd config : keeps original_cwd (prelude config).
Proof. unfold prelude, config_get; walk; by apply setenv_keeps. Qed.

End Resolve_facts.

(** ** The trace of a run *)

Section Traces.

Context {rt : Runtime}.

Lemma step_cases config s w :
  step config s w =
  match res (resolve config s w) with
  | Ok inv =>
      let w1 := final (resolve config s w) in
      Run (if (execute inv w1).1 then Ok tt else Raise (StageFailure inv))
          [Event s inv w1 (execute inv w1).1]
          (set_fs w1 (execute inv w1).2)
  | Raise e => Run (Raise e) [] (final (resolve config s w))
  end.
Proof.
  unfold step, bind. rewrite resolve_silent.
  by destruct (res (resolve config s w)).
Qed.

Lemma run_stages_exec config l w : exec config l w (run_stages config l w).
Proof.
  revert w. induction l as [|s l IH]; intros w; [constructor|].
  simpl. unfold bind at 1. rewrite step_cases.
  pose proof (resolve_silent config s w) as Hs.
  destruct (resolve config s w) as [[inv|e] lg w1] eqn:Hr; simpl in *; subst lg.
  - destruct (execute inv w1).1 eqn:Hx; simpl.
    + eapply (exec_next config s l w inv w1); eauto.
    + by apply exec_failed.
  - by apply exec_unresolved.
Qed.

Lemma exec_prefix config l w r :
  exec config l w r -> ev_stage <$> log r `prefix_of` l.
Proof.
  induction 1; simpl; try apply prefix_nil.
  - apply prefix_cons, prefix_nil.
  - by apply prefix_cons.
Qed.

Lemma exec_complete config l w r u :
  exec config l w r -> res r = Ok u ->
  ev_stage <$> log r = l /\ Forall (fun e => ev_ok e = true) (log r).
Proof.
  induction 1; simpl; intros Hres; try done.
  destruct (IHexec Hres) as [Hl Hall]. split; [|by constructor].
  f_equal. exact Hl.
Qed.

Lemma exec_failure config l w r pre e post :
  exec config l w r -> log r = pre ++ e :: post -> ev_ok e = false ->
  post = [] /\ res r = Raise (StageFailure (ev_inv e)).
Proof.
  intros Hexec. revert pre. induction Hexec; simpl; intros pre Hlog Hko.
  - by destruct pre.
  - by destruct pre.
  - destruct pre as [|x [|y pre]]; simplify_eq/=. done.
  - destruct pre as [|x pre]; simplify_eq/=. eauto.
Qed.

Lemma exec_event config l w r e :
  exec config l w r -> e ∈ log r ->
  ev_ok e = (execute (ev_inv e) (ev_world e)).1 /\
  exists w', resolve config (ev_stage e) w' = Run (Ok (ev_inv e)) [] (ev_world e).
Proof.
  induction 1; simpl; intros Hin.
  - by apply elem_of_nil in Hin.
  - by apply elem_of_nil in Hin.
  - apply list_elem_of_singleton in Hin as ->. simpl. eauto.
  - apply elem_of_cons in Hin as [->|Hin]; simpl; eauto.
Qed.

Lemma exec_first_world config l w r e :
  exec config l w r -> head (log r) = Some e ->
  dirs (fs (ev_world e)) = dirs (fs w) /\ cwd (ev_world e) = cwd w.
Proof.
  destruct 1 as [| | ? ? ? ? ? Hr _ | ? ? ? ? ? ? Hr _ _]; simpl; intros He;
    simplify_eq/=.
  - pose proof (resolve_keeps_dirs config s w) as Hd.
    pose proof (resolve_keeps_cwd config s w) as Hc.
    rewrite Hr in Hd, Hc. done.
  - pose proof (resolve_keeps_dirs config s w) as Hd.
    pose proof (resolve_keeps_cwd config s w) as Hc.
    rewrite Hr in Hd, Hc. done.
Qed.

Lemma go_prelude config w : go config w = bind (prelude config) (pipeline config) w.
Proof.
  symmetry. unfold prelude, go.
  do 5 (rewrite bind_assoc; apply bind_ext; intros ? ?).
  done.
Qed.

Lemma go_run config w :
  go config w =
  match res (prelude config w) with
  | Ok active => pipeline config active (final (prelude config w))
  | Raise e => Run (Raise e) [] (final (prelude config w))
  end.
Proof.
  rewrite go_prelude. unfold bind. rewrite prelude_silent.
  destruct (res (prelude config w)); [apply run_eta|done].
Qed.

Lemma pipeline_run config active w :
  pipeline config active w =
  let tmp_dir := mkdtemp w in
  let r := run_stages config (selected active)
             (set_fs w (Filesystem ({[tmp_dir]} ∪ dirs (fs w)) (files (fs w)))) in
  Run (res r) (log r) (set_fs (final r) (rmtree tmp_dir (fs (final r)))).
Proof. unfold pipeline, with_TemporaryDirectory. by rewrite body_run_stages. Qed.

Lemma prelude_Ok config w active :
  res (prelude config w) = Ok active ->
  exists steps_par,
    getitem2 config "main" "steps" = Ok steps_par /\
    select_steps steps_par = Ok active.
Proof.
  unfold prelude, config_get, lift, bind; simpl.
  destruct (getitem2 config "main" "project_name") as [[]|]; simpl; try done.
  destruct (getitem2 config "main" "experiment_name") as [[]|]; simpl; try done.
  destruct (getitem2 config "main" "steps") as [d|]; simpl; try done.
  eauto.
Qed.

(** Every run of [go] either stops before the [with] block, having invoked
    nothing, or its result and log are those of the selected blocks. *)
Lemma go_trace config w :
  (exists e, res (prelude config w) = Raise e /\
             res (go config w) = Raise e /\ log (go config w) = []) \/
  (exists active w1 r,
      res (prelude config w) = Ok active /\
      exec config (selected active) w1 r /\
      res (go config w) = res r /\ log (go config w) = log r).
Proof.
  rewrite go_run. destruct (res (prelude config w)) as [active|e] eqn:Hp.
  - right. rewrite pipeline_run. cbv zeta. simpl.
    eexists active, _, _. split; [done|]. split; [apply run_stages_exec|done].
  - left. eauto.
Qed.

End Traces.

(** ** Selection *)

Section Selection.

Lemma all_stages_ascending : ascending all_stages.
Proof.
  unfold ascending, all_stages.
  repeat (apply SSorted_cons; [|repeat constructor; simpl; lia]).
  constructor.
Qed.

Lemma ascending_filter (P : stage -> Prop) `{!forall s, Decision (P s)} l :
  ascending l -> ascending (filter P l).
Proof.
  unfold ascending. induction 1 as [|x l Hl IH Hx]; [constructor|].
  rewrite filter_cons. case_decide; [|done].
  constructor; [done|].
  apply Forall_forall. intros y Hy%list_elem_of_filter.
  rewrite Forall_forall in Hx. apply Hx, Hy.
Qed.

Lemma ascending_prefix l1 l2 : l1 `prefix_of` l2 -> ascending l2 -> ascending l1.
Proof. intros [k ->]. apply StronglySorted_app_1_l. Qed.

Lemma ascending_NoDup l : ascending l -> NoDup l.
Proof.
  unfold ascending. induction 1 as [|x l Hl IH Hx]; constructor; [|done].
  intros Hin. rewrite Forall_forall in Hx. specialize (Hx _ Hin). lia.
Qed.

Lemma ascending_last l b c :
  ascending (l ++ [b]) -> position b < position c -> c ∉ l ++ [b].
Proof.
  intros Hs Hlt [Hin|Hin%list_elem_of_singleton]%elem_of_app.
  - assert (b ∈ [b]) as Hb by (by apply list_elem_of_singleton).
    pose proof (StronglySorted_app_1_elem_of _ _ _ c b Hs Hin Hb) as H.
    simpl in H. lia.
  - subst. lia.
Qed.

Lemma selected_ascending active : ascending (selected active).
Proof. apply ascending_filter, all_stages_ascending. Qed.

Lemma elem_of_all_stages s : s ∈ all_stages.
Proof. destruct s; unfold all_stages; set_solver. Qed.

Lemma elem_of_selected s (active : list string) :
  s ∈ selected active <-> stage_name s ∈ active.
Proof.
  unfold selected. rewrite list_elem_of_filter.
  pose proof (elem_of_all_stages s). tauto.
Qed.

Lemma selected_ext (l1 l2 : list string) :
  (forall s, stage_name s ∈ l1 <-> stage_name s ∈ l2) -> selected l1 = selected l2.
Proof. intros H. unfold selected. by apply list_filter_iff. Qed.

Lemma stage_name_in_steps s : stage_name s ∈ _steps.
Proof. destruct s; unfold _steps; set_solver. Qed.

Lemma all_not_a_stage : "all" ∉ _steps.
Proof. by apply (bool_decide_unpack _). Qed.

Lemma steps_are_stage_names : stage_name <$> all_stages = _steps.
Proof. reflexivity. Qed.

Lemma selected_steps : selected _steps = all_stages.
Proof.
  by vm_compute.
Qed.

Lemma filter_all {A} (P : A -> Prop) `{!forall x, Decision (P x)} (l : list A) :
  (forall x, x ∈ l -> P x) -> filter P l = l.
Proof.
  induction l as [|x l IH]; intros Hl; [done|].
  rewrite filter_cons, decide_True by apply Hl, list_elem_of_here.
  f_equal. apply IH. intros y Hy. by apply Hl, list_elem_of_further.
Qed.

(** All six blocks are selected exactly when every stage name is asked
    for. *)
Lemma selected_all (active : list string) :
  selected active = all_stages <-> forall s, stage_name s ∈ active.
Proof.
  split.
  - intros Hall s. apply elem_of_selected. rewrite Hall. apply elem_of_all_stages.
  - intros H. unfold selected. apply filter_all. intros s _. apply H.
Qed.

End Selection.

Section Go_trace_facts.

Context {rt : Runtime}.

Lemma go_stages_ascending config w : ascending (ev_stage <$> log (go config w)).
Proof.
  destruct (go_trace config w) as [(e & _ & _ & ->)|(active & w1 & r & _ & Hx & _ & ->)].
  - constructor.
  - eapply ascending_prefix; [by eapply exec_prefix|apply selected_ascending].
Qed.

End Go_trace_facts.

(** * The claims *)

Section Fail_fast.

Context {rt : Runtime}.

(** C1.  Fail fast: if the invocation of a stage [b] fails during a run of
    [go], then it is the last invocation of the run (every invocation before
    it succeeded, nothing is invoked after it, and in particular no stage
    that follows [b] in the order of the program is invoked), no stage is
    invoked twice (no retry), and the run ends with the exception of that
    very invocation, which is the one the block of [b] built. *)
Theorem fail_fast config w b :
  b ∈ log (go config w) -> ev_ok b = false ->
  res (go config w) = Raise (StageFailure (ev_inv b)) /\
  (exists pre, log (go config w) = pre ++ [b] /\
               Forall (fun e => ev_ok e = true) pre) /\
  (forall c, position (ev_stage b) < position c ->
             c ∉ ev_stage <$> log (go config w)) /\
  NoDup (ev_stage <$> log (go config w)) /\
  (exists w', resolve config (ev_stage b) w' = Run (Ok (ev_inv b)) [] (ev_world b)).
Proof.
  intros Hin Hko.
  pose proof (go_stages_ascending config w) as Hasc.
  destruct (go_trace config w)
    as [(e & _ & _ & Hlog)|(active & w1 & r & _ & Hx & Hres & Hlog)].
  { rewrite Hlog in Hin. by apply elem_of_nil in Hin. }
  rewrite Hres, Hlog in *.
  destruct (list_elem_of_split _ _ Hin) as (pre & post & Hsplit).
  destruct (exec_failure _ _ _ _ _ _ _ Hx Hsplit Hko) as [-> Hr].
  split; [done|]. split; [|split; [|split]].
  - exists pre. split; [done|].
    apply Forall_forall. intros x Hxin.
    destruct (ev_ok x) eqn:Hxok; [done|exfalso].
    destruct (list_elem_of_split _ _ Hxin) as (p1 & p2 & ->).
    rewrite <- app_assoc in Hsplit. simpl in Hsplit.
    destruct (exec_failure _ _ _ _ _ _ _ Hx Hsplit Hxok) as [Hnil _].
    by destruct p2.
  - intros c Hlt. rewrite Hsplit, fmap_app in *. by apply ascending_last.
  - by apply ascending_NoDup.
  - by apply (exec_event _ _ _ _ _ Hx).
Qed.

(** C10.  In every run of [go], whatever the directive and the
    configuration, no stage is invoked more than once: the stages of the
    log are pairwise distinct (and appear in the order of the program). *)
Theorem each_stage_at_most_once config w :
  NoDup (ev_stage <$> log (go config w)) /\
  ascending (ev_stage <$> log (go config w)).
Proof.
  split; [apply ascending_NoDup|]; apply go_stages_ascending.
Qed.

End Fail_fast.

(** With every stage selected and [basic_cleaning] failing, the second
    invocation is the failing one; the theorem then gives the rest. *)
Lemma fail_fast_witness :
  exists b,
    log (go (rt := Demo.rt_cleaning_fails) (Demo.config "all") Demo.w0) !! 1%nat = Some b /\
    ev_stage b = BasicCleaning /\
    ev_ok b = false /\
    res (go (rt := Demo.rt_cleaning_fails) (Demo.config "all") Demo.w0)
      = Raise (StageFailure (ev_inv b)) /\
    DataCheck ∉ ev_stage <$> log (go (rt := Demo.rt_cleaning_fails) (Demo.config "all") Demo.w0).
Proof.
  assert (exists b,
    log (go (rt := Demo.rt_cleaning_fails) (Demo.config "all") Demo.w0) !! 1%nat = Some b /\
    ev_stage b = BasicCleaning /\ ev_ok b = false) as (b & Hb & Hs & Hko).
  { vm_compute. eexists. repeat split; reflexivity. }
  exists b. split; [exact Hb|]. split; [exact Hs|]. split; [exact Hko|].
  destruct (fail_fast (rt := Demo.rt_cleaning_fails) (Demo.config "all") Demo.w0 b)
    as (Hres & _ & Hlater & _); [by eapply list_elem_of_lookup_2|exact Hko|].
  split; [exact Hres|]. apply Hlater. rewrite Hs. simpl. lia.
Defined.

(** ** Runs under a given directive *)

Section Directive.

Context {rt : Runtime}.

Lemma bind_lift_Ok {A B} (a : A) (f : A -> M B) w : bind (lift (Ok a)) f w = f a w.
Proof. apply (bind_ret_l a f w). Qed.

Lemma select_steps_split d : d <> "all" -> select_steps (VStr d) = Ok (Str.split "," d).
Proof.
  intros Hd. unfold select_steps.
  destruct (String.eqb_spec d "all") as [->|_]; [done|reflexivity].
Qed.

(** The stages a run invokes are an initial segment of the selected blocks,
    and all of them when the run returns. *)
Lemma go_selected config w steps_par active :
  getitem2 config "main" "steps" = Ok steps_par ->
  select_steps steps_par = Ok active ->
  ev_stage <$> log (go config w) `prefix_of` selected active /\
  (forall u, res (go config w) = Ok u ->
             ev_stage <$> log (go config w) = selected active /\
             Forall (fun e => ev_ok e = true) (log (go config w))).
Proof.
  intros Hd Hsel.
  destruct (go_trace config w)
    as [(e & _ & Hres & Hlog)|(active' & w1 & r & Hp & Hx & Hres & Hlog)].
  - rewrite Hres, Hlog. split; [apply prefix_nil|done].
  - apply prelude_Ok in Hp as (d' & Hd' & Hsel').
    rewrite Hd in Hd'. injection Hd' as <-.
    rewrite Hsel in Hsel'. injection Hsel' as <-.
    rewrite Hres, Hlog. split; [eapply exec_prefix; eauto|].
    intros u Hu. eapply exec_complete; eauto.
Qed.

Lemma resolve_agree c1 c2 s w :
  agree_except_steps c1 c2 -> resolve c1 s w = resolve c2 s w.
Proof.
  intros H.
  destruct s; unfold resolve, resolve_download, resolve_basic_cleaning,
    resolve_data_check, resolve_data_split, resolve_train_random_forest,
    resolve_test_regression_model, config_get;
    repeat match goal with
      | |- context [getitem2 c1 ?a ?b] => rewrite (H a b) by done
      end; reflexivity.
Qed.

Lemma run_stages_agree c1 c2 l w :
  agree_except_steps c1 c2 -> run_stages c1 l w = run_stages c2 l w.
Proof.
  intros H. revert w. induction l as [|s l IH]; intros w; [done|].
  assert (step c1 s w = step c2 s w) as Hstep.
  { unfold step, bind. by rewrite (resolve_agree c1 c2 s w H). }
  simpl. unfold bind. rewrite Hstep.
  destruct (res (step c2 s w)); [by rewrite IH|done].
Qed.

Lemma pipeline_agree c1 c2 a1 a2 w :
  agree_except_steps c1 c2 -> selected a1 = selected a2 ->
  pipeline c1 a1 w = pipeline c2 a2 w.
Proof.
  intros H Hsel. rewrite !pipeline_run, Hsel. cbv zeta.
  by rewrite (run_stages_agree c1 c2 _ _ H).
Qed.

(** Two runs that differ only in the directive, the directives selecting
    the same blocks, are the same run. *)
Lemma go_agree c1 c2 d1 d2 a1 a2 w :
  agree_except_steps c1 c2 ->
  getitem2 c1 "main" "steps" = Ok d1 -> select_steps d1 = Ok a1 ->
  getitem2 c2 "main" "steps" = Ok d2 -> select_steps d2 = Ok a2 ->
  selected a1 = selected a2 ->
  go c1 w = go c2 w.
Proof.
  intros H H1 S1 H2 S2 Hsel. unfold go, config_get.
  rewrite (H "main" "project_name"), (H "main" "experiment_name") by done.
  rewrite H1, H2.
  do 4 (apply bind_ext; intros ? ?).
  rewrite !bind_lift_Ok, S1, S2, !bind_lift_Ok.
  by apply pipeline_agree.
Qed.

End Directive.

Section Selection_claims.

Context {rt : Runtime}.

(** C3.  For the directive ["all"], line 33 of [go] yields the list
    [_steps], which holds the six stage names in the order download,
    basic_cleaning, data_check, data_split, train_random_forest,
    test_regression_model; the blocks selected are then all six, in that
    order: a run invokes an initial segment of them, and all of them when it
    returns. *)
Theorem everything_selects_all config w :
  getitem2 config "main" "steps" = Ok (VStr "all") ->
  select_steps (VStr "all")
  = Ok [ "download"; "basic_cleaning"; "data_check"; "data_split";
         "train_random_forest"; "test_regression_model" ] /\
  selected _steps = all_stages /\
  ev_stage <$> log (go config w) `prefix_of` all_stages /\
  (forall u, res (go config w) = Ok u ->
             ev_stage <$> log (go config w) = all_stages).
Proof.
  intros Hd. split; [reflexivity|]. split; [apply selected_steps|].
  destruct (go_selected config w (VStr "all") _steps Hd eq_refl) as [Hpre Hall].
  rewrite selected_steps in Hpre, Hall. split; [done|].
  intros u Hu. by destruct (Hall u Hu).
Qed.

(** C4.  For a directive other than ["all"] whose comma-separated names
    are all stage names, the selected blocks are exactly the named stages,
    in the order of the program text; a run invokes an initial segment of
    them, and all of them when it returns; and a run under any other
    listing of the same names, in whatever order, is the same run. *)
Theorem subset_runs_in_program_order config w d :
  getitem2 config "main" "steps" = Ok (VStr d) ->
  d <> "all" ->
  Forall (fun name => name ∈ _steps) (Str.split "," d) ->
  (forall name, name ∈ Str.split "," d <->
                name ∈ stage_name <$> selected (Str.split "," d)) /\
  ascending (selected (Str.split "," d)) /\
  ev_stage <$> log (go config w) `prefix_of` selected (Str.split "," d) /\
  (forall u, res (go config w) = Ok u ->
             ev_stage <$> log (go config w) = selected (Str.split "," d)) /\
  (forall config' d',
      agree_except_steps config config' ->
      getitem2 config' "main" "steps" = Ok (VStr d') ->
      d' <> "all" ->
      Str.split "," d' ≡ₚ Str.split "," d ->
      go config' w = go config w).
Proof.
  intros Hd Hne Hvalid.
  pose proof (select_steps_split d Hne) as Hsel.
  destruct (go_selected config w _ _ Hd Hsel) as [Hpre Hall].
  split; [|split; [apply selected_ascending|split; [done|split]]].
  - intros name. rewrite list_elem_of_fmap. split.
    + intros Hin. rewrite Forall_forall in Hvalid.
      pose proof (Hvalid _ Hin) as Hcat.
      rewrite <- steps_are_stage_names, list_elem_of_fmap in Hcat.
      destruct Hcat as (s & -> & _). exists s. split; [done|].
      by apply elem_of_selected.
    + intros (s & -> & Hs). by apply elem_of_selected.
  - intros u Hu. by destruct (Hall u Hu).
  - intros config' d' Hagree Hd' Hne' Hperm. symmetry.
    eapply (go_agree config config'); eauto using select_steps_split.
    apply selected_ext. intros s. by rewrite Hperm.
Qed.

(** C2, as the code has it.  A name of the directive that is not a stage
    name is ignored, not rejected: for a directive other than ["all"] that
    holds such a name, selection succeeds with the split list, the selected
    blocks are those whose name occurs in it, a run invokes an initial
    segment of them (all of them when it returns), and the run is the one of
    any directive that names the same stages, such as the directive without
    the foreign names. *)
Theorem unknown_names_ignored config w d :
  getitem2 config "main" "steps" = Ok (VStr d) ->
  d <> "all" ->
  (exists name, name ∈ Str.split "," d /\ name ∉ _steps) ->
  select_steps (VStr d) = Ok (Str.split "," d) /\
  (forall s, s ∈ selected (Str.split "," d) <-> stage_name s ∈ Str.split "," d) /\
  ev_stage <$> log (go config w) `prefix_of` selected (Str.split "," d) /\
  (forall u, res (go config w) = Ok u ->
             ev_stage <$> log (go config w) = selected (Str.split "," d)) /\
  (forall config' d',
      agree_except_steps config config' ->
      getitem2 config' "main" "steps" = Ok (VStr d') ->
      d' <> "all" ->
      (forall name, name ∈ _steps ->
                    (name ∈ Str.split "," d' <-> name ∈ Str.split "," d)) ->
      go config' w = go config w).
Proof.
  intros Hd Hne _.
  pose proof (select_steps_split d Hne) as Hsel.
  destruct (go_selected config w _ _ Hd Hsel) as [Hpre Hall].
  split; [done|]. split; [intros s; apply elem_of_selected|].
  split; [done|]. split.
  - intros u Hu. by destruct (Hall u Hu).
  - intros config' d' Hagree Hd' Hne' Hsame. symmetry.
    eapply (go_agree config config'); eauto using select_steps_split.
    apply selected_ext. intros s. symmetry. apply Hsame, stage_name_in_steps.
Qed.

(** C9, as the code has it.  The shortcut of line 33, which takes [_steps]
    without looking at names, is taken only by the directive that is exactly
    ["all"]: any other directive, also one that lists ["all"] among its
    names, is split; ["all"] is the name of no stage, so the selected blocks
    are those of the other names (a run invokes an initial segment of them,
    and all of them when it returns).  All six blocks are selected by such a
    directive exactly when every stage name is among its pieces. *)
Theorem all_shortcut_only_for_whole_directive config w d :
  getitem2 config "main" "steps" = Ok (VStr d) ->
  d <> "all" ->
  select_steps (VStr d) = Ok (Str.split "," d) /\
  ("all" ∉ _steps) /\
  (forall s, s ∈ selected (Str.split "," d) <->
             stage_name s ∈ filter (fun name => name <> "all") (Str.split "," d)) /\
  (selected (Str.split "," d) = all_stages <->
   forall s, stage_name s ∈ Str.split "," d) /\
  ev_stage <$> log (go config w) `prefix_of` selected (Str.split "," d) /\
  (forall u, res (go config w) = Ok u ->
             ev_stage <$> log (go config w) = selected (Str.split "," d)).
Proof.
  intros Hd Hne.
  pose proof (select_steps_split d Hne) as Hsel.
  destruct (go_selected config w _ _ Hd Hsel) as [Hpre Hall].
  split; [done|]. split; [apply all_not_a_stage|].
  split; [|split; [apply selected_all|split; [done|]]].
  - intros s. rewrite elem_of_selected, list_elem_of_filter.
    split; [|tauto]. intros Hin. split; [|done]. by destruct s.
  - intros u Hu. by destruct (Hall u Hu).
Qed.

End Selection_claims.

(** ** The selection claims on concrete directives *)

Lemma demo_config_agree d1 d2 :
  agree_except_steps (Demo.config d1) (Demo.config d2).
Proof.
  intros a b Hab. unfold getitem2, Demo.config. simpl.
  destruct (String.eqb_spec a "main") as [->|_]; [|reflexivity].
  simpl.
  repeat (match goal with
          | |- context [String.eqb b ?k] =>
              destruct (String.eqb_spec b k) as [->|_]; simpl; try done
          end).
Qed.

Lemma everything_selects_all_witness :
  ev_stage <$> log (go (rt := Demo.rt_ok) (Demo.config "all") Demo.w0) = all_stages.
Proof.
  destruct (everything_selects_all (rt := Demo.rt_ok) (Demo.config "all") Demo.w0)
    as (_ & _ & _ & Hall); [reflexivity|].
  apply (Hall tt). reflexivity.
Defined.

Lemma subset_runs_in_program_order_witness :
  ev_stage <$> log (go (rt := Demo.rt_ok) (Demo.config "data_split,download") Demo.w0)
  = [Download; DataSplit]
  /\ go (rt := Demo.rt_ok) (Demo.config "download,data_split") Demo.w0
     = go (rt := Demo.rt_ok) (Demo.config "data_split,download") Demo.w0.
Proof.
  destruct (subset_runs_in_program_order (rt := Demo.rt_ok)
              (Demo.config "data_split,download") Demo.w0 "data_split,download")
    as (_ & _ & _ & Hall & Horder).
  - reflexivity.
  - discriminate.
  - by apply (bool_decide_unpack _).
  - split.
    + apply (Hall tt). reflexivity.
    + apply (Horder (Demo.config "download,data_split") "download,data_split").
      * apply demo_config_agree.
      * reflexivity.
      * discriminate.
      * apply Permutation_swap.
Defined.

(** C2, as stated, fails: under the directive ["download,foo"] the name
    [foo], which is no stage name, raises nothing; line 33 yields both names,
    the download stage is invoked and the run returns normally. *)
Lemma unknown_name_not_rejected :
  "foo" ∈ Str.split "," "download,foo" /\
  ("foo" ∉ _steps) /\
  select_steps (VStr "download,foo") = Ok ["download"; "foo"] /\
  res (go (rt := Demo.rt_ok) (Demo.config "download,foo") Demo.w0) = Ok tt /\
  ev_stage <$> log (go (rt := Demo.rt_ok) (Demo.config "download,foo") Demo.w0)
  = [Download].
Proof.
  split; [by apply (bool_decide_unpack _)|].
  split; [by apply (bool_decide_unpack _)|].
  repeat split; reflexivity.
Qed.

Lemma unknown_names_ignored_witness :
  ev_stage <$> log (go (rt := Demo.rt_ok) (Demo.config "download,foo") Demo.w0)
  = [Download]
  /\ go (rt := Demo.rt_ok) (Demo.config "download") Demo.w0
     = go (rt := Demo.rt_ok) (Demo.config "download,foo") Demo.w0.
Proof.
  destruct (unknown_names_ignored (rt := Demo.rt_ok)
              (Demo.config "download,foo") Demo.w0 "download,foo")
    as (_ & _ & _ & Hall & Hsame).
  - reflexivity.
  - discriminate.
  - exists "foo". split; by apply (bool_decide_unpack _).
  - split.
    + apply (Hall tt). reflexivity.
    + apply (Hsame (Demo.config "download") "download").
      * apply demo_config_agree.
      * reflexivity.
      * discriminate.
      * intros name Hname. apply (bool_decide_unpack _).
        unfold _steps in Hname. set_unfold in Hname.
        by destruct Hname as [->|[->|[->|[->|[->|[->|[]]]]]]].
Defined.

(** C9, as stated, fails: the directive that names the six stages is not
    ["all"], yet line 33 yields the full list [_steps] for it and the run
    invokes all six stages; and the directive that lists ["all"] before the
    six names, which is not ["all"] either, selects all six blocks too. *)
Lemma full_list_without_all :
  "download,basic_cleaning,data_check,data_split,train_random_forest,test_regression_model"
  <> "all" /\
  select_steps
    (VStr "download,basic_cleaning,data_check,data_split,train_random_forest,test_regression_model")
  = Ok _steps /\
  ev_stage <$>
    log (go (rt := Demo.rt_ok)
           (Demo.config
              "download,basic_cleaning,data_check,data_split,train_random_forest,test_regression_model")
           Demo.w0)
  = all_stages /\
  "all" ∈ Str.split ","
            "all,download,basic_cleaning,data_check,data_split,train_random_forest,test_regression_model" /\
  selected
    (Str.split ","
       "all,download,basic_cleaning,data_check,data_split,train_random_forest,test_regression_model")
  = all_stages.
Proof.
  split; [discriminate|]. split; [reflexivity|]. split; [by vm_compute|].
  split; [by apply (bool_decide_unpack _)|by vm_compute].
Qed.

Lemma all_shortcut_only_for_whole_directive_witness :
  select_steps (VStr "all,download") = Ok ["all"; "download"] /\
  selected (Str.split "," "all,download") <> all_stages /\
  ev_stage <$> log (go (rt := Demo.rt_ok) (Demo.config "all,download") Demo.w0)
  = [Download].
Proof.
  destruct (all_shortcut_only_for_whole_directive (rt := Demo.rt_ok)
              (Demo.config "all,download") Demo.w0 "all,download")
    as (Hsel & _ & _ & Hfull & _ & Hall).
  - reflexivity.
  - discriminate.
  - split; [exact Hsel|]. split; [|apply (Hall tt); reflexivity].
    intros Hsix. destruct Hfull as [Hfull _].
    pose proof (Hfull Hsix BasicCleaning) as Hbc.
    revert Hbc. by apply (bool_decide_unpack _).
Defined.

(** ** The scratch directory *)

Section Workspace.

Context {rt : Runtime}.

Lemma inside_self d : PosixPath.inside d d = true.
Proof. unfold PosixPath.inside. by rewrite String.eqb_refl. Qed.

Lemma rmtree_dirs d f p : PosixPath.inside d p = true -> p ∉ dirs (rmtree d f).
Proof.
  intros Hin. unfold rmtree. simpl. rewrite elem_of_filter. intros [Hout _].
  congruence.
Qed.

Lemma rmtree_files d f p :
  PosixPath.inside d p = true -> files (rmtree d f) !! p = None.
Proof.
  intros Hin. unfold rmtree. simpl. apply map_lookup_filter_None_2.
  right. intros x _. simpl. congruence.
Qed.

(** C5.  Whenever [go] gets as far as the [with] block, the directory made
    on entry (it exists when the first stage is invoked) is gone from the
    file system once [go] has ended, together with everything below it,
    whether [go] returned, raised the failure of a stage, or raised anything
    else; and when [go] raises before the [with] block, no directory was made
    and the file system is as it was. *)
Theorem workspace_removed config w :
  match res (prelude config w) with
  | Ok _ =>
      let tmp_dir := mkdtemp (final (prelude config w)) in
      (forall e, head (log (go config w)) = Some e ->
                 tmp_dir ∈ dirs (fs (ev_world e))) /\
      (tmp_dir ∉ dirs (fs (final (go config w)))) /\
      (forall p, PosixPath.inside tmp_dir p = true ->
                 (p ∉ dirs (fs (final (go config w)))) /\
                 files (fs (final (go config w))) !! p = None)
  | Raise e =>
      res (go config w) = Raise e /\
      log (go config w) = [] /\
      fs (final (go config w)) = fs w
  end.
Proof.
  rewrite go_run. destruct (res (prelude config w)) as [active|e] eqn:Hp.
  - rewrite pipeline_run. cbv zeta. simpl. split; [|split].
    + intros e He.
      destruct (exec_first_world _ _ _ _ _ (run_stages_exec _ _ _) He) as [-> _].
      simpl. set_solver.
    + apply rmtree_dirs, inside_self.
    + intros p Hp'. split; [by apply rmtree_dirs|by apply rmtree_files].
  - simpl. by rewrite prelude_keeps_fs.
Qed.

End Workspace.

(** ** The scenario of two stages *)

Section Scenario.

Context {rt : Runtime}.

Lemma prelude_run config w project_name experiment_name steps_par :
  getitem2 config "main" "project_name" = Ok (VStr project_name) ->
  getitem2 config "main" "experiment_name" = Ok (VStr experiment_name) ->
  getitem2 config "main" "steps" = Ok steps_par ->
  prelude config w =
  Run (select_steps steps_par) []
      (World (<["WANDB_RUN_GROUP" := experiment_name]>
                (<["WANDB_PROJECT" := project_name]> (environ w)))
             (cwd w) (original_cwd w) (fs w)).
Proof.
  intros H1 H2 H3. unfold prelude, config_get. rewrite H1, H2, H3. reflexivity.
Qed.

Lemma resolve_download_run config w sample :
  getitem2 config "etl" "sample" = Ok (VStr sample) ->
  resolve config Download w =
  Run (Ok (SubprocessRun
             [ "python"; "components/get_data/manual.py";
               "--sample"; sample;
               "--artifact_name"; "sample.csv";
               "--artifact_type"; "raw_data";
               "--artifact_description"; "Raw file as downloaded" ])) [] w.
Proof.
  intros H. unfold resolve, resolve_download, config_get. unfold bind at 1.
  by rewrite H.
Qed.

Lemma resolve_basic_cleaning_run config w min_price max_price :
  getitem2 config "etl" "min_price" = Ok min_price ->
  getitem2 config "etl" "max_price" = Ok max_price ->
  resolve config BasicCleaning w =
  Run (Ok (MlflowRun
             (PosixPath.join (original_cwd w) ["src"; "basic_cleaning"]) "main"
             [ ("input_artifact", VStr "sample.csv:latest");
               ("output_artifact", VStr "clean_sample.csv");
               ("output_type", VStr "clean_sample");
               ("output_description",
                VStr "Data with outliers and null values removed");
               ("min_price", min_price);
               ("max_price", max_price) ])) [] w.
Proof.
  intros H1 H2. unfold resolve, resolve_basic_cleaning, config_get.
  rewrite H1, H2. reflexivity.
Qed.

(** The log of the two blocks: the download alone when it fails, else the
    download and then the cleaning. *)
Lemma download_cleaning_log config w1 sample min_price max_price :
  getitem2 config "etl" "sample" = Ok (VStr sample) ->
  getitem2 config "etl" "min_price" = Ok min_price ->
  getitem2 config "etl" "max_price" = Ok max_price ->
  exists e1,
    ev_stage e1 = Download /\
    ev_inv e1 = SubprocessRun
                  [ "python"; "components/get_data/manual.py";
                    "--sample"; sample;
                    "--artifact_name"; "sample.csv";
                    "--artifact_type"; "raw_data";
                    "--artifact_description"; "Raw file as downloaded" ] /\
    ((ev_ok e1 = false /\ log (run_stages config [Download; BasicCleaning] w1) = [e1]) \/
     (exists e2,
        log (run_stages config [Download; BasicCleaning] w1) = [e1; e2] /\
        ev_stage e2 = BasicCleaning /\
        ev_inv e2 = MlflowRun
                      (PosixPath.join (original_cwd w1) ["src"; "basic_cleaning"]) "main"
                      [ ("input_artifact", VStr "sample.csv:latest");
                        ("output_artifact", VStr "clean_sample.csv");
                        ("output_type", VStr "clean_sample");
                        ("output_description",
                         VStr "Data with outliers and null values removed");
                        ("min_price", min_price);
                        ("max_price", max_price) ])).
Proof.
  intros Hsample Hmin Hmax.
  pose proof (run_stages_exec config [Download; BasicCleaning] w1) as Hx.
  remember (run_stages config [Download; BasicCleaning] w1) as r eqn:Hr.
  clear Hr.
  repeat match goal with
    | H : exec _ (_ :: _) _ _ |- _ => inversion H; clear H; subst
    | H : exec _ [] _ _ |- _ => inversion H; clear H; subst
    | H : resolve config Download _ = _ |- _ =>
        rewrite (resolve_download_run _ _ _ Hsample) in H; simplify_eq
    | H : resolve config BasicCleaning _ = _ |- _ =>
        rewrite (resolve_basic_cleaning_run _ _ _ _ Hmin Hmax) in H; simplify_eq
    end;
    (eexists (Event Download _ _ _); split; [reflexivity|split; [reflexivity|]]);
    first [ left; split; reflexivity
          | right; eexists (Event BasicCleaning _ _ _); repeat split; reflexivity ].
Qed.

(** C7.  Under the directive ["download,basic_cleaning"], with
    [etl.sample = "data.csv"], [etl.min_price = 10], [etl.max_price = 1000]
    and the two names of [main] in place, a run in which the download
    succeeds invokes exactly two stages: the download script first, with
    [--sample data.csv], and the [basic_cleaning] project second, whose
    parameters start with [input_artifact = "sample.csv:latest"] and end
    with the two prices. *)
Theorem download_then_basic_cleaning config w project_name experiment_name :
  getitem2 config "main" "project_name" = Ok (VStr project_name) ->
  getitem2 config "main" "experiment_name" = Ok (VStr experiment_name) ->
  getitem2 config "main" "steps" = Ok (VStr "download,basic_cleaning") ->
  getitem2 config "etl" "sample" = Ok (VStr "data.csv") ->
  getitem2 config "etl" "min_price" = Ok (VInt 10) ->
  getitem2 config "etl" "max_price" = Ok (VInt 1000) ->
  (forall e, e ∈ log (go config w) -> ev_stage e = Download -> ev_ok e = true) ->
  exists e1 e2,
    log (go config w) = [e1; e2] /\
    ev_stage e1 = Download /\
    ev_inv e1 = SubprocessRun
                  [ "python"; "components/get_data/manual.py";
                    "--sample"; "data.csv";
                    "--artifact_name"; "sample.csv";
                    "--artifact_type"; "raw_data";
                    "--artifact_description"; "Raw file as downloaded" ] /\
    ev_stage e2 = BasicCleaning /\
    ev_inv e2 = MlflowRun
                  (PosixPath.join (original_cwd w) ["src"; "basic_cleaning"]) "main"
                  [ ("input_artifact", VStr "sample.csv:latest");
                    ("output_artifact", VStr "clean_sample.csv");
                    ("output_type", VStr "clean_sample");
                    ("output_description",
                     VStr "Data with outliers and null values removed");
                    ("min_price", VInt 10);
                    ("max_price", VInt 1000) ] /\
    parameter (ev_inv e2) "input_artifact" = Some (VStr "sample.csv:latest").
Proof.
  intros Hp He Hd Hsample Hmin Hmax.
  rewrite go_run, (prelude_run _ _ _ _ _ Hp He Hd). cbn [res final].
  change (select_steps (VStr "download,basic_cleaning"))
    with (Ok ["download"; "basic_cleaning"]). cbv iota.
  rewrite pipeline_run. cbv zeta. cbn [log].
  change (selected ["download"; "basic_cleaning"]) with [Download; BasicCleaning].
  match goal with
  | |- context [run_stages config _ ?x] =>
      destruct (download_cleaning_log config x _ _ _ Hsample Hmin Hmax)
        as (e1 & Hs1 & Hi1 & [[Hko ->]|(e2 & -> & Hs2 & Hi2)])
  end; intros Hok.
  - specialize (Hok e1 (list_elem_of_here _ _) Hs1). congruence.
  - exists e1, e2. rewrite Hi2. repeat split; done.
Qed.

End Scenario.

Lemma download_then_basic_cleaning_witness :
  (ev_stage <$> log (go (rt := Demo.rt_ok) (Demo.config "download,basic_cleaning") Demo.w0))
  = [Download; BasicCleaning].
Proof.
  destruct (download_then_basic_cleaning (rt := Demo.rt_ok)
              (Demo.config "download,basic_cleaning") Demo.w0
              "nyc_airbnb" "development")
    as (e1 & e2 & -> & H1 & _ & H2 & _); try reflexivity.
  - intros e He _. vm_compute in He.
    by repeat (apply elem_of_cons in He as [->|He]; [reflexivity|]);
       apply elem_of_nil in He.
  - simpl. by rewrite H1, H2.
Defined.

(** ** Resolving twice *)

Section Idempotence.

Context {rt : Runtime}.

Lemma stable_ret {A} (a : A) : stable (ret a).
Proof. done. Qed.

Lemma stable_raise {A} e : stable (@raise A e).
Proof. done. Qed.

Lemma stable_lift {A} (r : result A) : stable (lift r).
Proof. done. Qed.

Lemma stable_getcwd : stable getcwd.
Proof. intros w w' Hc _. simpl. by rewrite Hc. Qed.

Lemma stable_get_original_cwd : stable get_original_cwd.
Proof. intros w w' _ Ho. simpl. by rewrite Ho. Qed.

Lemma stable_write_file p t : stable (write_file p t).
Proof. done. Qed.

Lemma stable_bind {A B} (m : M A) (f : A -> M B) :
  stable m -> keeps cwd m -> keeps original_cwd m -> (forall a, stable (f a)) ->
  stable (bind m f).
Proof.
  intros Hm Hc Ho Hf w w' Hcw How. unfold bind. rewrite (Hm w w' Hcw How).
  destruct (res (m w)); simpl; [|done].
  apply Hf; by rewrite ?Hc, ?Ho.
Qed.

Lemma resolve_stable config s : stable (resolve config s).
Proof.
  destruct s; unfold resolve, resolve_download, resolve_basic_cleaning,
    resolve_data_check, resolve_data_split, resolve_train_random_forest,
    resolve_test_regression_model, config_get;
    repeat first
      [ apply stable_bind; [| | |intros ?]
      | match goal with
        | |- stable (match ?x with _ => _ end) => destruct x
        | |- keeps _ (match ?x with _ => _ end) => destruct x
        end
      | solve [auto using stable_ret, stable_raise, stable_lift, stable_getcwd,
                 stable_get_original_cwd, stable_write_file with driver]
      | done ].
Qed.

Lemma final_bind {A B} (m : M A) (f : A -> M B) w :
  final (bind m f w) =
  match res (m w) with
  | Ok a => final (f a (final (m w)))
  | Raise _ => final (m w)
  end.
Proof. unfold bind. by destruct (res (m w)). Qed.

Lemma put_put p t t' w : put p t (put p t' w) = put p t w.
Proof. unfold put, set_fs. simpl. by rewrite insert_insert_eq. Qed.

(** Every block but the training block leaves the world as it is. *)
Lemma resolve_keeps_world config s :
  s <> TrainRandomForest -> keeps (fun w => w) (resolve config s).
Proof.
  intros Hs.
  destruct s; try done; unfold resolve, resolve_download, resolve_basic_cleaning,
    resolve_data_check, resolve_data_split, resolve_test_regression_model,
    config_get, get_original_cwd; walk.
Qed.

(** The training block leaves one file behind, in the working directory. *)
Lemma train_final config w :
  final (resolve config TrainRandomForest w)
  = put (PosixPath.abspath (cwd w) "rf_config.json") (rf_text config) w.
Proof.
  unfold resolve, resolve_train_random_forest, rf_text.
  rewrite final_bind. cbn [getcwd res final].
  rewrite final_bind. cbn [write_file res final].
  rewrite final_bind. cbn [config_get lift res final].
  destruct (getitem2 config "modeling" "random_forest") as [rf|e]; [|done].
  rewrite final_bind. cbn [lift res final].
  destruct (dict_items rf) as [items|e]; [|done].
  cbv zeta. rewrite final_bind. cbn [write_file res final]. rewrite put_put.
  rewrite final_bind.
  destruct (json_dump items).2; cbn [ret raise res final]; [|done].
  match goal with
  | |- final (?m ?x) = _ =>
      assert (keeps (fun w => w) m) as Hk
        by (unfold config_get, get_original_cwd; walk);
      apply (Hk x)
  end.
Qed.

Lemma res_bind {A B} (m : M A) (f : A -> M B) w :
  res (bind m f w) =
  match res (m w) with
  | Ok a => res (f a (final (m w)))
  | Raise e => Raise e
  end.
Proof. unfold bind. by destruct (res (m w)). Qed.

(** Whenever the training block gets to build its invocation, the
    [rf_config] parameter is the absolute path of [rf_config.json] in the
    working directory of the process, the file at that path holds what
    [json.dump] wrote for [modeling.random_forest], and the dump was
    complete. *)
Lemma train_rf_config config w inv :
  res (resolve config TrainRandomForest w) = Ok inv ->
  parameter inv "rf_config"
  = Some (VStr (PosixPath.abspath (cwd w) "rf_config.json")) /\
  files (fs (final (resolve config TrainRandomForest w)))
    !! PosixPath.abspath (cwd w) "rf_config.json" = Some (rf_text config) /\
  exists items,
    getitem2 config "modeling" "random_forest" = Ok (VDict items) /\
    json_dump items = (rf_text config, true).
Proof.
  intros H. split; [|split].
  - revert H. unfold resolve, resolve_train_random_forest.
    repeat (rewrite res_bind;
            cbn [getcwd write_file config_get get_original_cwd lift ret raise
                 res final];
            try match goal with
              | |- context [match ?x with Ok _ => _ | Raise _ => _ end] =>
                  destruct x; [|done]
              | |- context [if ?b then _ else _] => destruct b; [|done]
              end).
    by intros [= <-].
  - rewrite train_final. unfold put, set_fs. simpl. apply lookup_insert_eq.
  - revert H. unfold resolve, resolve_train_random_forest, rf_text.
    do 3 (rewrite res_bind; cbn [getcwd write_file config_get lift res final]).
    destruct (getitem2 config "modeling" "random_forest") as [rf|]; [|done].
    rewrite res_bind. cbn [lift res final].
    destruct rf; try done. cbn [dict_items].
    cbv zeta. do 2 (rewrite res_bind; cbn [write_file res final]).
    destruct (json_dump items) as [text [|]] eqn:Hd; [|done].
    intros _. by exists items.
Qed.



End Idempotence.

Section Idempotence_claim.

Context {rt : Runtime}.


End Idempotence_claim.


Lemma workspace_removed_witness :
  (Demo.tmp_dir ∉ dirs (fs (final (go (rt := Demo.rt_cleaning_fails) (Demo.config "all") Demo.w0))))
  /\ exists inv, res (go (rt := Demo.rt_cleaning_fails) (Demo.config "all") Demo.w0)
                 = Raise (StageFailure inv).
Proof.
  split; [|eexists; reflexivity].
  pose proof (workspace_removed (rt := Demo.rt_cleaning_fails) (Demo.config "all") Demo.w0)
    as H.
  assert (res (prelude (Demo.config "all") Demo.w0) = Ok _steps) as Hp
    by reflexivity.
  rewrite Hp in H. destruct H as (_ & H & _). exact H.
Defined.

(** ** The hyperparameter file *)

(** C6 on the code.  Under the directive ["train_random_forest"], with the
    process in [/home/user/project/outputs/run1] and the scratch directory
    [/tmp/tmpk3x9ab_q], the training stage is the one stage invoked; when it
    is invoked the scratch directory exists, the file named by its
    [rf_config] parameter exists and holds the JSON text of
    [modeling.random_forest], and that name is absolute; but the file is in
    the working directory of the process, not in the scratch directory,
    which holds no file at all, and it is still there after the run.
    ([train_final] and [train_rf_config] give the path and the content for
    every configuration and world.) *)
Theorem rf_config_written_to_cwd :
  let o := go (rt := Demo.rt_ok) (Demo.config "train_random_forest") Demo.w0 in
  log o = [Event TrainRandomForest Demo.train_invocation Demo.w_train true] /\
  res o = Ok tt /\
  mkdtemp (Runtime := Demo.rt_ok) Demo.w0 = Demo.tmp_dir /\
  Demo.tmp_dir ∈ dirs (fs Demo.w_train) /\
  parameter Demo.train_invocation "rf_config" = Some (VStr Demo.rf_config) /\
  PosixPath.isabs Demo.rf_config = true /\
  files (fs Demo.w_train) !! Demo.rf_config
  = Some (json_dump (Runtime := Demo.rt_ok) Demo.random_forest).1 /\
  PosixPath.inside Demo.tmp_dir Demo.rf_config = false /\
  (forall p, PosixPath.inside Demo.tmp_dir p = true ->
             files (fs Demo.w_train) !! p = None) /\
  files (fs (final o)) !! Demo.rf_config
  = Some (json_dump (Runtime := Demo.rt_ok) Demo.random_forest).1.
Proof.
  cbv zeta.
  split; [by vm_compute|]. split; [reflexivity|]. split; [reflexivity|].
  split; [unfold Demo.w_train; simpl; set_solver|].
  split; [reflexivity|]. split; [reflexivity|].
  split; [by vm_compute|]. split; [reflexivity|]. split; [|by vm_compute].
  intros p Hp. unfold Demo.w_train. simpl.
  assert (Demo.rf_config <> p) as Hne by (intros <-; discriminate Hp).
  by rewrite !lookup_insert_ne, lookup_empty.
Qed.

(** * Further properties of [go] *)

(** ** What a run leaves alone *)

Section Run_frame.

Context {rt : Runtime}.

Lemma resolve_keeps_environ config s : keeps environ (resolve config s).
Proof.
  destruct s; unfold resolve, resolve_download, resolve_basic_cleaning,
    resolve_data_check, resolve_data_split, resolve_train_random_forest,
    resolve_test_regression_model, config_get, getcwd, get_original_cwd; walk.
Qed.

(** The blocks change nothing of the process but the file system. *)
Lemma exec_frame config l w r :
  exec config l w r ->
  (environ (final r) = environ w /\ cwd (final r) = cwd w /\
   original_cwd (final r) = original_cwd w) /\
  (forall e, e ∈ log r ->
             environ (ev_world e) = environ w /\ cwd (ev_world e) = cwd w /\
             original_cwd (ev_world e) = original_cwd w).
Proof.
  induction 1 as [w|s l w e w1 Hr|s l w inv w1 Hr Hx|s l w inv w1 r Hr Hx _ IH];
    simpl.
  - split; [done|]. by intros e He%elem_of_nil.
  - pose proof (resolve_keeps_environ config s w) as He.
    pose proof (resolve_keeps_cwd config s w) as Hc.
    pose proof (resolve_keeps_original_cwd config s w) as Ho.
    rewrite Hr in He, Hc, Ho. simpl in *.
    split; [done|]. by intros x Hx%elem_of_nil.
  - pose proof (resolve_keeps_environ config s w) as He.
    pose proof (resolve_keeps_cwd config s w) as Hc.
    pose proof (resolve_keeps_original_cwd config s w) as Ho.
    rewrite Hr in He, Hc, Ho. simpl in *.
    split; [done|]. by intros x ->%list_elem_of_singleton.
  - pose proof (resolve_keeps_environ config s w) as He.
    pose proof (resolve_keeps_cwd config s w) as Hc.
    pose proof (resolve_keeps_original_cwd config s w) as Ho.
    rewrite Hr in He, Hc, Ho. simpl in *.
    destruct IH as [(IH1 & IH2 & IH3) IHlog]. simpl in *.
    split; [by rewrite IH1, IH2, IH3|].
    intros x [->|Hin]%elem_of_cons; [done|].
    destruct (IHlog x Hin) as (H1 & H2 & H3). simpl in *.
    by rewrite H1, H2, H3.
Qed.

(** Whenever the lines before the [with] get through, both names are
    strings and the world is the old one with the two variables set. *)
Lemma prelude_Ok_identity config w active :
  res (prelude config w) = Ok active ->
  exists project_name experiment_name,
    getitem2 config "main" "project_name" = Ok (VStr project_name) /\
    getitem2 config "main" "experiment_name" = Ok (VStr experiment_name) /\
    final (prelude config w) = run_identity project_name experiment_name w.
Proof.
  unfold prelude, config_get, lift, bind, run_identity; simpl.
  destruct (getitem2 config "main" "project_name") as [[]|]; simpl; try done.
  destruct (getitem2 config "main" "experiment_name") as [[]|]; simpl; try done.
  destruct (getitem2 config "main" "steps") as [d|]; simpl; try done.
  intros _. eauto.
Qed.

(** The run of [go] as the run of the selected blocks between [enter] and
    [leave]. *)
Lemma go_unfold config w active :
  res (prelude config w) = Ok active ->
  let w1 := final (prelude config w) in
  let r := run_stages config (selected active) (enter (mkdtemp w1) w1) in
  go config w = Run (res r) (log r) (leave (mkdtemp w1) (final r)).
Proof. intros Hp. rewrite go_run, Hp, pipeline_run. reflexivity. Qed.

Lemma go_unfold_Raise config w e :
  res (prelude config w) = Raise e ->
  go config w = Run (Raise e) [] (final (prelude config w)).
Proof. intros Hp. by rewrite go_run, Hp. Qed.

Lemma prelude_other_variables config (k : string) :
  k <> "WANDB_PROJECT" -> k <> "WANDB_RUN_GROUP" ->
  keeps (fun w => environ w !! k) (prelude config).
Proof.
  intros H1 H2. unfold prelude, config_get; walk;
    apply setenv_keeps; intros; simpl; by rewrite lookup_insert_ne.
Qed.

End Run_frame.

Section Run_events.

Context {rt : Runtime}.

(** What is known of an invocation of a run: the lines before the [with]
    got through, the stage is a selected one, it is invoked in the working
    directories of the start with the environment those lines left, and its
    invocation is the one its block builds in the world of the start. *)
Lemma go_event config w e :
  e ∈ log (go config w) ->
  exists active,
    res (prelude config w) = Ok active /\
    ev_stage e ∈ selected active /\
    environ (ev_world e) = environ (final (prelude config w)) /\
    cwd (ev_world e) = cwd w /\
    original_cwd (ev_world e) = original_cwd w /\
    res (resolve config (ev_stage e) w) = Ok (ev_inv e) /\
    ev_ok e = (execute (ev_inv e) (ev_world e)).1.
Proof.
  intros Hin. destruct (res (prelude config w)) as [active|x] eqn:Hp.
  2:{ rewrite (go_unfold_Raise _ _ _ Hp) in Hin. by apply elem_of_nil in Hin. }
  rewrite (go_unfold _ _ _ Hp) in Hin. cbv zeta in Hin. simpl in Hin.
  exists active. split; [done|].
  match type of Hin with
  | _ ∈ log (run_stages _ _ ?x) =>
      pose proof (run_stages_exec config (selected active) x) as Hx;
      set (w1 := x) in *
  end.
  destruct (exec_frame _ _ _ _ Hx) as [_ Hframe].
  destruct (Hframe e Hin) as (He & Hc & Ho).
  destruct (exec_event _ _ _ _ _ Hx Hin) as (Hok & w' & Hr).
  pose proof (prelude_keeps_cwd config w) as Hpc.
  pose proof (prelude_keeps_original_cwd config w) as Hpo.
  simpl in Hpc, Hpo.
  split; [|split; [exact He|split; [by rewrite Hc|split; [by rewrite Ho|split]]]].
  - destruct (exec_prefix _ _ _ _ Hx) as [k ->].
    apply elem_of_app. left. apply list_elem_of_fmap. by exists e.
  - pose proof (resolve_keeps_cwd config (ev_stage e) w') as Hkc.
    pose proof (resolve_keeps_original_cwd config (ev_stage e) w') as Hko.
    rewrite Hr in Hkc, Hko. simpl in Hkc, Hko.
    change (cwd w1) with (cwd (final (prelude config w))) in Hc.
    change (original_cwd w1) with (original_cwd (final (prelude config w))) in Ho.
    rewrite (resolve_stable config (ev_stage e) w' w), Hr; [done|congruence..].
  - exact Hok.
Qed.

(** X1.  Every stage a run invokes finds the two variables of lines 28 and
    29 in its environment, holding [main.project_name] and
    [main.experiment_name], which are strings. *)
Theorem stages_see_run_identity config w e :
  e ∈ log (go config w) ->
  exists project_name experiment_name,
    getitem2 config "main" "project_name" = Ok (VStr project_name) /\
    getitem2 config "main" "experiment_name" = Ok (VStr experiment_name) /\
    environ (ev_world e) !! "WANDB_PROJECT" = Some project_name /\
    environ (ev_world e) !! "WANDB_RUN_GROUP" = Some experiment_name.
Proof.
  intros Hin. destruct (go_event _ _ _ Hin) as (active & Hp & _ & He & _).
  destruct (prelude_Ok_identity _ _ _ Hp) as (p & x & H1 & H2 & Hw).
  exists p, x. split; [done|]. split; [done|].
  rewrite He, Hw. unfold run_identity. simpl.
  split; [|apply lookup_insert_eq].
  rewrite lookup_insert_ne by done. apply lookup_insert_eq.
Qed.

(** X2.  A run never changes the working directory of the process (nor
    the directory Hydra started in), sets no environment variable other than
    [WANDB_PROJECT] and [WANDB_RUN_GROUP], and invokes every stage in the
    working directory it started in, whatever its outcome. *)
Theorem go_keeps_process config w :
  cwd (final (go config w)) = cwd w /\
  original_cwd (final (go config w)) = original_cwd w /\
  (forall k : string, k <> "WANDB_PROJECT" -> k <> "WANDB_RUN_GROUP" ->
              environ (final (go config w)) !! k = environ w !! k) /\
  (forall e, e ∈ log (go config w) ->
             cwd (ev_world e) = cwd w /\
             original_cwd (ev_world e) = original_cwd w).
Proof.
  split; [|split; [|split]].
  - destruct (res (prelude config w)) as [active|x] eqn:Hp.
    + rewrite (go_unfold _ _ _ Hp). cbv zeta. simpl.
      destruct (exec_frame _ _ _ _ (run_stages_exec config (selected active)
                  (enter (mkdtemp (final (prelude config w))) (final (prelude config w)))))
        as [(_ & -> & _) _].
      apply prelude_keeps_cwd.
    + rewrite (go_unfold_Raise _ _ _ Hp). apply prelude_keeps_cwd.
  - destruct (res (prelude config w)) as [active|x] eqn:Hp.
    + rewrite (go_unfold _ _ _ Hp). cbv zeta. simpl.
      destruct (exec_frame _ _ _ _ (run_stages_exec config (selected active)
                  (enter (mkdtemp (final (prelude config w))) (final (prelude config w)))))
        as [(_ & _ & ->) _].
      apply prelude_keeps_original_cwd.
    + rewrite (go_unfold_Raise _ _ _ Hp). apply prelude_keeps_original_cwd.
  - intros k H1 H2. destruct (res (prelude config w)) as [active|x] eqn:Hp.
    + rewrite (go_unfold _ _ _ Hp). cbv zeta. simpl.
      destruct (exec_frame _ _ _ _ (run_stages_exec config (selected active)
                  (enter (mkdtemp (final (prelude config w))) (final (prelude config w)))))
        as [(-> & _ & _) _].
      apply (prelude_other_variables config k H1 H2).
    + rewrite (go_unfold_Raise _ _ _ Hp).
      apply (prelude_other_variables config k H1 H2).
  - intros e Hin. destruct (go_event _ _ _ Hin) as (_ & _ & _ & _ & Hc & Ho & _).
    done.
Qed.

(** X3.  The invocation of a stage does not depend on what went before
    it in the run: it is the one its block builds in the world [go] was
    started in, whatever earlier stages left on the file system. *)
Theorem invocation_fixed_at_start config w e :
  e ∈ log (go config w) ->
  res (resolve config (ev_stage e) w) = Ok (ev_inv e) /\
  ev_ok e = (execute (ev_inv e) (ev_world e)).1.
Proof.
  intros Hin. by destruct (go_event _ _ _ Hin) as (_ & _ & _ & _ & _ & _ & H1 & H2).
Qed.

End Run_events.

(** ** Runs that stop before the [with], and runs that select nothing *)

Section Early_exits.

Context {rt : Runtime}.

(** X4.  The two names of [main] are read and exported in turn.  When
    [main.project_name] is missing or no string, [go] raises at line 28 and
    the world is untouched.  When it is a string without NUL character but
    [main.experiment_name] is missing or no string, [go] raises at line 29
    with [WANDB_PROJECT] already set; nothing is invoked and no directory is
    made.  The exception is the one of the lookup, or [TypeError] for a
    value that is no string. *)
Theorem names_exported_in_turn config w :
  ((forall p, getitem2 config "main" "project_name" <> Ok (VStr p)) ->
   go config w =
   Run (Raise match getitem2 config "main" "project_name" with
              | Raise e => e
              | Ok _ => TypeError
              end) [] w) /\
  (forall p,
      getitem2 config "main" "project_name" = Ok (VStr p) ->
      has_char Ascii.zero p = false ->
      (forall x, getitem2 config "main" "experiment_name" <> Ok (VStr x)) ->
      go config w =
      Run (Raise match getitem2 config "main" "experiment_name" with
                 | Raise e => e
                 | Ok _ => TypeError
                 end) []
          (World (<["WANDB_PROJECT" := p]> (environ w)) (cwd w) (original_cwd w)
                 (fs w))).
Proof.
  split.
  - intros Hp. rewrite go_run. unfold prelude, config_get, lift, bind; simpl.
    destruct (getitem2 config "main" "project_name") as [[]|]; simpl;
      try done; try by destruct w.
    by destruct (Hp s).
  - intros p Hp _ Hx. rewrite go_run.
    unfold prelude, config_get, lift, bind; simpl.
    rewrite Hp; simpl.
    destruct (getitem2 config "main" "experiment_name") as [[]|]; simpl;
      try done.
    by destruct (Hx s).
Qed.



Lemma rmtree_files_outside d f p :
  PosixPath.inside d p = false -> files (rmtree d f) !! p = files f !! p.
Proof.
  intros Hout. unfold rmtree. simpl.
  destruct (files f !! p) as [t|] eqn:Hp.
  - by apply map_lookup_filter_Some_2.
  - apply map_lookup_filter_None_2. by left.
Qed.


End Early_exits.

(** ** How a run can end *)

Section Outcomes.

Context {rt : Runtime}.

Lemma getitem_plain v k inv : getitem v k <> Raise (StageFailure inv).
Proof. destruct v; simpl; try done. by destruct (assoc k items). Qed.

Lemma getitem2_plain config a b inv : getitem2 config a b <> Raise (StageFailure inv).
Proof.
  unfold getitem2. destruct (getitem config a) eqn:H; [apply getitem_plain|].
  intros [= ->]. by apply getitem_plain in H.
Qed.

Lemma plain_ret {A} (a : A) : plain (ret a).
Proof. done. Qed.

Lemma plain_bind {A B} (m : M A) (f : A -> M B) :
  plain m -> (forall a, plain (f a)) -> plain (bind m f).
Proof.
  intros Hm Hf w inv. unfold bind.
  destruct (res (m w)) eqn:H; simpl; [apply Hf|].
  intros [= ->]. by apply Hm in H.
Qed.

Lemma plain_config_get config a b : plain (config_get config a b).
Proof. intros w inv. apply getitem2_plain. Qed.

Lemma plain_setenv k v : plain (setenv k v).
Proof. by destruct v. Qed.

Lemma plain_dict_items v : plain (lift (dict_items v)).
Proof. by destruct v. Qed.

Lemma plain_select_steps v : plain (lift (select_steps v)).
Proof. intros w inv. destruct v; simpl; try done. by destruct (negb _). Qed.

(** Walks through a chain of binds, as [walk] does, for [plain]. *)
Ltac walk_plain :=
  repeat first
    [ apply plain_bind; [|intros ?]
    | apply plain_config_get
    | apply plain_setenv
    | apply plain_dict_items
    | apply plain_select_steps
    | match goal with
      | |- plain (match ?x with _ => _ end) => destruct x
      end
    | done ].

Lemma resolve_plain config s : plain (resolve config s).
Proof.
  destruct s; unfold resolve, resolve_download, resolve_basic_cleaning,
    resolve_data_check, resolve_data_split, resolve_train_random_forest,
    resolve_test_regression_model; walk_plain.
Qed.

Lemma prelude_plain config : plain (prelude config).
Proof. unfold prelude; walk_plain. Qed.

Lemma exec_outcome config l w r :
  exec config l w r ->
  match res r with
  | Ok _ => Forall (fun e => ev_ok e = true) (log r)
  | Raise (StageFailure inv) =>
      exists pre b, log r = pre ++ [b] /\ ev_ok b = false /\ ev_inv b = inv /\
                    Forall (fun e => ev_ok e = true) pre
  | Raise _ => Forall (fun e => ev_ok e = true) (log r)
  end.
Proof.
  induction 1 as [w|s l w e w1 Hr|s l w inv w1 Hr Hx|s l w inv w1 r Hr Hx _ IH];
    simpl.
  - constructor.
  - destruct e; try constructor.
    pose proof (resolve_plain config s w inv) as Hplain. by rewrite Hr in Hplain.
  - exists [], (Event s inv w1 false). by repeat split.
  - destruct (res r) as [u|[k| | |inv']]; try by constructor.
    destruct IH as (pre & b & -> & Hko & Hinv & Hpre).
    exists (Event s inv w1 true :: pre), b. repeat split; try done.
    by constructor.
Qed.

(** X7.  How a run can end.  When [go] returns, every invocation it made
    succeeded.  When it raises the failure of a stage, that stage is the
    last one invoked, its invocation failed, and every one before it
    succeeded.  When it raises anything else (a missing key, a value of the
    wrong type), every invocation made until then succeeded. *)
Theorem go_outcome config w :
  match res (go config w) with
  | Ok _ => Forall (fun e => ev_ok e = true) (log (go config w))
  | Raise (StageFailure inv) =>
      exists pre b,
        log (go config w) = pre ++ [b] /\ ev_ok b = false /\ ev_inv b = inv /\
        Forall (fun e => ev_ok e = true) pre
  | Raise _ => Forall (fun e => ev_ok e = true) (log (go config w))
  end.
Proof.
  destruct (res (prelude config w)) as [active|x] eqn:Hp.
  - rewrite (go_unfold _ _ _ Hp). cbv zeta. cbn [res log].
    apply (exec_outcome _ _ _ _ (run_stages_exec config (selected active) _)).
  - rewrite (go_unfold_Raise _ _ _ Hp). cbn [res log].
    destruct x; try constructor.
    by apply prelude_plain in Hp.
Qed.

End Outcomes.

(** ** The keys a run reads *)

Section Keys.

Context {rt : Runtime}.

Lemma resolve_reads c1 c2 s w :
  (forall a b, (a, b) ∈ reads s -> getitem2 c1 a b = getitem2 c2 a b) ->
  resolve c1 s w = resolve c2 s w.
Proof.
  intros H.
  destruct s; unfold resolve, resolve_download, resolve_basic_cleaning,
    resolve_data_check, resolve_data_split, resolve_train_random_forest,
    resolve_test_regression_model, config_get;
    repeat match goal with
      | |- context [getitem2 c1 ?a ?b] =>
          rewrite (H a b) by (by apply (bool_decide_unpack _))
      end; reflexivity.
Qed.

Lemma run_stages_reads c1 c2 l w :
  (forall s a b, s ∈ l -> (a, b) ∈ reads s -> getitem2 c1 a b = getitem2 c2 a b) ->
  run_stages c1 l w = run_stages c2 l w.
Proof.
  revert w. induction l as [|s l IH]; intros w H; [done|].
  assert (step c1 s w = step c2 s w) as Hstep.
  { unfold step, bind. rewrite (resolve_reads c1 c2 s w); [done|].
    intros k1 k2. apply H, list_elem_of_here. }
  simpl. unfold bind. rewrite Hstep.
  destruct (res (step c2 s w)); [|done].
  rewrite IH; [done|]. intros s' k1 k2 Hs'. apply H. by apply list_elem_of_further.
Qed.

(** X8.  A run reads, beside [main.project_name], [main.experiment_name]
    and [main.steps], only the keys of the blocks the directive selects:
    two configurations that agree on those give the same run, whatever else
    they hold or lack. *)
Theorem only_selected_keys_read c1 c2 w steps_par active :
  getitem2 c1 "main" "steps" = Ok steps_par ->
  select_steps steps_par = Ok active ->
  getitem2 c2 "main" "project_name" = getitem2 c1 "main" "project_name" ->
  getitem2 c2 "main" "experiment_name" = getitem2 c1 "main" "experiment_name" ->
  getitem2 c2 "main" "steps" = getitem2 c1 "main" "steps" ->
  (forall s a b, s ∈ selected active -> (a, b) ∈ reads s ->
                 getitem2 c1 a b = getitem2 c2 a b) ->
  go c2 w = go c1 w.
Proof.
  intros Hd Hsel Hp Hx Hs Hkeys. symmetry.
  unfold go, config_get. rewrite Hp, Hx, Hs, Hd.
  do 4 (apply bind_ext; intros ? ?).
  rewrite !bind_lift_Ok, Hsel, !bind_lift_Ok.
  unfold with_TemporaryDirectory. rewrite !body_run_stages.
  by rewrite (run_stages_reads c1 c2 _ _ Hkeys).
Qed.

End Keys.

(** ** The training block when it cannot write its file *)

Section Training_file.

Context {rt : Runtime}.

Lemma run_ext {A} (r : run A) a l w :
  res r = a -> log r = l -> final r = w -> r = Run a l w.
Proof. destruct r. simpl. by intros -> -> ->. Qed.

(** X9.  The training block opens [rf_config.json] for writing before it
    reads [modeling.random_forest].  When that key is missing, or holds
    something that is no mapping, the block raises (the exception of the
    lookup, or [AttributeError] for a value without [items]) and leaves the
    file behind empty in the working directory, an older file of that name
    truncated; the training stage is not invoked. *)
Theorem training_file_truncated config w :
  (forall items, getitem2 config "modeling" "random_forest" <> Ok (VDict items)) ->
  resolve config TrainRandomForest w =
  Run (Raise match getitem2 config "modeling" "random_forest" with
             | Raise e => e
             | Ok _ => AttributeError
             end) []
      (put (PosixPath.abspath (cwd w) "rf_config.json") "" w).
Proof.
  intros H. apply run_ext.
  - unfold resolve, resolve_train_random_forest.
    do 3 (rewrite res_bind; cbn [getcwd write_file config_get lift res final]).
    destruct (getitem2 config "modeling" "random_forest") as [rf|e]; [|done].
    rewrite res_bind. cbn [lift res final].
    destruct rf; try done. by destruct (H items).
  - apply resolve_silent.
  - rewrite train_final. unfold rf_text.
    destruct (getitem2 config "modeling" "random_forest") as [rf|e]; [|done].
    destruct rf; try done. by destruct (H items).
Qed.

(** X10.  When [json.dump] raises on the mapping (a nested mapping or
    list is not serializable), the block raises [TypeError] and the file
    keeps the text written up to that point; the training stage is not
    invoked. *)
Theorem training_file_partial config w items :
  getitem2 config "modeling" "random_forest" = Ok (VDict items) ->
  (json_dump items).2 = false ->
  resolve config TrainRandomForest w =
  Run (Raise TypeError) []
      (put (PosixPath.abspath (cwd w) "rf_config.json") (json_dump items).1 w).
Proof.
  intros Hrf Hdump. apply run_ext.
  - unfold resolve, resolve_train_random_forest.
    do 3 (rewrite res_bind; cbn [getcwd write_file config_get lift res final]).
    rewrite Hrf. rewrite res_bind. cbn [lift dict_items res final]. cbv zeta.
    do 2 (rewrite res_bind; cbn [write_file res final]).
    by rewrite Hdump.
  - apply resolve_silent.
  - rewrite train_final. unfold rf_text. by rewrite Hrf.
Qed.

End Training_file.

(** ** Splitting the directive *)

Section Split.

Lemma split_nonempty sep s : Str.split sep s <> [].
Proof. destruct s as [|c r]; simpl; [done|]. by repeat case_match. Qed.

Lemma concat_cons sep (x : string) l :
  l <> [] -> String.concat sep (x :: l) = x +:+ sep +:+ String.concat sep l.
Proof. by destruct l. Qed.

Lemma concat_cons_char sep c h t :
  String.concat sep (String c h :: t) = String c (String.concat sep (h :: t)).
Proof. by destruct t. Qed.

(** X11.  Splitting loses nothing: joining the pieces of [s.split(sep)]
    with [sep] gives [s] back, no piece holds the separator, and there is
    always at least one piece. *)
Theorem split_join sep s :
  String.concat (String sep EmptyString) (Str.split sep s) = s /\
  Forall (fun piece => has_char sep piece = false) (Str.split sep s) /\
  Str.split sep s <> [].
Proof.
  split; [|split; [|apply split_nonempty]].
  - induction s as [|c r IH]; [done|]. simpl.
    destruct (Ascii.eqb_spec c sep) as [->|Hne].
    + rewrite concat_cons by apply split_nonempty. simpl. by rewrite IH.
    + pose proof (split_nonempty sep r) as Hnil.
      destruct (Str.split sep r) as [|h t]; [done|].
      by rewrite concat_cons_char, IH.
  - induction s as [|c r IH]; [by repeat constructor|]. simpl.
    destruct (Ascii.eqb_spec c sep) as [->|Hne].
    + by constructor.
    + pose proof (split_nonempty sep r) as Hnil.
      destruct (Str.split sep r) as [|h t]; [done|].
      inversion IH as [|? ? Hh Ht]; subst. constructor; [|done].
      simpl. rewrite Hh. by destruct (Ascii.eqb_spec c sep).
Qed.

Lemma split_piece sep h s :
  has_char sep h = false ->
  Str.split sep (h +:+ String sep s) = h :: Str.split sep s.
Proof.
  induction h as [|c h IH]; simpl.
  - intros _. by rewrite Ascii.eqb_refl.
  - destruct (Ascii.eqb_spec c sep) as [->|Hne]; [done|]. simpl.
    intros Hh. by rewrite (IH Hh).
Qed.

Lemma split_whole sep h : has_char sep h = false -> Str.split sep h = [h].
Proof.
  induction h as [|c h IH]; simpl; [done|].
  destruct (Ascii.eqb_spec c sep) as [->|Hne]; [done|]. simpl.
  intros Hh. by rewrite (IH Hh).
Qed.

(** Joining names that hold no separator and splitting again gives the
    names back. *)
Lemma split_concat sep (names : list string) :
  names <> [] ->
  Forall (fun name => has_char sep name = false) names ->
  Str.split sep (String.concat (String sep EmptyString) names) = names.
Proof.
  intros Hne Hall. induction Hall as [|name rest Hname Hrest IH]; [done|].
  destruct rest as [|next rest].
  - simpl. by apply split_whole.
  - rewrite concat_cons by done.
    change (name +:+ String sep "" +:+ String.concat (String sep "") (next :: rest))
      with (name +:+ String sep (String.concat (String sep "") (next :: rest))).
    rewrite split_piece by done. by rewrite IH.
Qed.

(** X12.  Any list of names but the single name ["all"] can be asked for:
    for one or more names that hold no comma, not just the one name
    ["all"], line 33 turns the directive made by joining them with commas
    into exactly those names, in their order.  The one name ["all"] gives
    the directive ["all"], for which line 33 yields [_steps] instead. *)
Theorem directive_of_names (names : list string) :
  names <> [] ->
  Forall (fun name => has_char "," name = false) names ->
  (names <> ["all"] ->
   select_steps (VStr (String.concat "," names)) = Ok names) /\
  (names = ["all"] ->
   select_steps (VStr (String.concat "," names)) = Ok _steps).
Proof.
  intros Hne Hall. split.
  - intros Hnot. rewrite select_steps_split.
    + f_equal. by apply split_concat.
    + intros Heq. apply Hnot.
      rewrite <- (split_concat "," names Hne Hall), Heq. reflexivity.
  - intros ->. reflexivity.
Qed.

End Split.

(** ** What the stages are invoked with *)

Section Invocations.

Context {rt : Runtime}.

(** Steps through the binds of a block that got to build its invocation,
    keeping the lookups that succeeded. *)
Ltac built :=
  repeat (rewrite res_bind;
          cbn [getcwd write_file config_get get_original_cwd lift ret raise
               res final];
          try match goal with
            | |- context [match ?x with Ok _ => _ | Raise _ => _ end] =>
                destruct x eqn:?; [|done]
            | |- context [if ?b then _ else _] => destruct b; [|done]
            end).

(** The invocation a block builds, for each of the six. *)
Lemma resolve_Ok_shape config s w inv :
  res (resolve config s w) = Ok inv ->
  match s with
  | Download =>
      exists sample,
        getitem2 config "etl" "sample" = Ok (VStr sample) /\
        inv = SubprocessRun
                [ "python"; "components/get_data/manual.py";
                  "--sample"; sample;
                  "--artifact_name"; "sample.csv";
                  "--artifact_type"; "raw_data";
                  "--artifact_description"; "Raw file as downloaded" ]
  | BasicCleaning =>
      exists min_price max_price,
        inv = MlflowRun
                (PosixPath.join (original_cwd w) ["src"; "basic_cleaning"]) "main"
                [ ("input_artifact", VStr "sample.csv:latest");
                  ("output_artifact", VStr "clean_sample.csv");
                  ("output_type", VStr "clean_sample");
                  ("output_description",
                   VStr "Data with outliers and null values removed");
                  ("min_price", min_price);
                  ("max_price", max_price) ]
  | DataCheck =>
      exists kl_threshold min_price max_price,
        inv = MlflowRun
                (PosixPath.join (original_cwd w) ["src"; "data_check"]) "main"
                [ ("csv", VStr "clean_sample.csv:latest");
                  ("ref", VStr "clean_sample.csv:reference");
                  ("kl_threshold", kl_threshold);
                  ("min_price", min_price);
                  ("max_price", max_price) ]
  | DataSplit =>
      exists repository test_size random_seed stratify_by,
        getitem2 config "main" "components_repository" = Ok repository /\
        inv = MlflowRun
                (format_value repository +:+ "/train_val_test_split") "main"
                [ ("input", VStr "clean_sample.csv:latest");
                  ("test_size", test_size);
                  ("random_seed", random_seed);
                  ("stratify_by", stratify_by) ]
  | TrainRandomForest =>
      exists val_size random_seed stratify_by max_tfidf_features,
        inv = MlflowRun
                (PosixPath.join (original_cwd w) ["src"; "train_random_forest"])
                "main"
                [ ("trainval_artifact", VStr "trainval_data.csv:latest");
                  ("val_size", val_size);
                  ("random_seed", random_seed);
                  ("stratify_by", stratify_by);
                  ("rf_config",
                   VStr (PosixPath.abspath (cwd w) "rf_config.json"));
                  ("max_tfidf_features", max_tfidf_features);
                  ("output_artifact", VStr "random_forest_export") ]
  | TestRegressionModel =>
      exists repository,
        getitem2 config "main" "components_repository" = Ok repository /\
        inv = MlflowRun
                (format_value repository +:+ "/test_regression_model") "main"
                [ ("mlflow_model", VStr "random_forest_export:prod");
                  ("test_dataset", VStr "test_data.csv:latest") ]
  end.
Proof.
  destruct s; unfold resolve, resolve_download, resolve_basic_cleaning,
    resolve_data_check, resolve_data_split, resolve_train_random_forest,
    resolve_test_regression_model.
  - built. destruct a; try done. intros [= <-]. eauto.
  - built. intros [= <-]. eauto.
  - built. intros [= <-]. eauto.
  - built. intros [= <-]. eauto 6.
  - built. intros [= <-]. eauto 6.
  - built. intros [= <-]. eauto.
Qed.

(** X13.  The names the stages hand on fit together, under every
    configuration: in a run, the artifact the cleaning stage reads is the
    one the download registers, qualified [latest]; the data check and the
    split read the output of the cleaning, qualified [latest] (and
    [reference] for the data check's baseline); and the model the test
    stage reads is the export of the training stage, qualified [prod]. *)
Theorem artifacts_chain config w e1 e2 :
  e1 ∈ log (go config w) -> e2 ∈ log (go config w) ->
  match ev_stage e1, ev_stage e2 with
  | Download, BasicCleaning =>
      exists name,
        argument (ev_inv e1) "--artifact_name" = Some name /\
        parameter (ev_inv e2) "input_artifact" = Some (VStr (name +:+ ":latest"))
  | BasicCleaning, DataCheck =>
      exists name,
        parameter (ev_inv e1) "output_artifact" = Some (VStr name) /\
        parameter (ev_inv e2) "csv" = Some (VStr (name +:+ ":latest")) /\
        parameter (ev_inv e2) "ref" = Some (VStr (name +:+ ":reference"))
  | BasicCleaning, DataSplit =>
      exists name,
        parameter (ev_inv e1) "output_artifact" = Some (VStr name) /\
        parameter (ev_inv e2) "input" = Some (VStr (name +:+ ":latest"))
  | TrainRandomForest, TestRegressionModel =>
      exists name,
        parameter (ev_inv e1) "output_artifact" = Some (VStr name) /\
        parameter (ev_inv e2) "mlflow_model" = Some (VStr (name +:+ ":prod"))
  | _, _ => True
  end.
Proof.
  intros H1 H2.
  destruct (go_event _ _ _ H1) as (_ & _ & _ & _ & _ & _ & Hr1 & _).
  destruct (go_event _ _ _ H2) as (_ & _ & _ & _ & _ & _ & Hr2 & _).
  apply resolve_Ok_shape in Hr1, Hr2.
  destruct (ev_stage e1), (ev_stage e2); try exact I.
  - destruct Hr1 as (sample & _ & ->), Hr2 as (a & b & ->).
    exists "sample.csv". split; reflexivity.
  - destruct Hr1 as (a & b & ->), Hr2 as (k & a' & b' & ->).
    exists "clean_sample.csv". repeat split; reflexivity.
  - destruct Hr1 as (a & b & ->), Hr2 as (r & t & sd & st & _ & ->).
    exists "clean_sample.csv". repeat split; reflexivity.
  - destruct Hr1 as (a & b & c & d & ->), Hr2 as (r & _ & ->).
    exists "random_forest_export". split; reflexivity.
Qed.

(** X14.  Where the stages are run from.  The download is the one stage
    run as a command, the script [components/get_data/manual.py] under
    [python]; every other stage is an MLflow project run at entry point
    [main]: the cleaning, the data check and the training from the directory
    [src/<stage name>] below the directory Hydra started in, the split and
    the test from [main.components_repository], at [/train_val_test_split]
    and [/test_regression_model]. *)
Theorem stage_targets config w e :
  e ∈ log (go config w) ->
  match ev_stage e with
  | Download =>
      exists args,
        ev_inv e = SubprocessRun ("python" :: "components/get_data/manual.py" :: args)
  | BasicCleaning | DataCheck | TrainRandomForest =>
      exists parameters,
        ev_inv e = MlflowRun
                     (PosixPath.join (original_cwd w) ["src"; stage_name (ev_stage e)])
                     "main" parameters
  | DataSplit =>
      exists repository parameters,
        getitem2 config "main" "components_repository" = Ok repository /\
        ev_inv e = MlflowRun (format_value repository +:+ "/train_val_test_split")
                     "main" parameters
  | TestRegressionModel =>
      exists repository parameters,
        getitem2 config "main" "components_repository" = Ok repository /\
        ev_inv e = MlflowRun (format_value repository +:+ "/test_regression_model")
                     "main" parameters
  end.
Proof.
  intros Hin.
  destruct (go_event _ _ _ Hin) as (_ & _ & _ & _ & _ & _ & Hr & _).
  apply resolve_Ok_shape in Hr.
  destruct (ev_stage e).
  - destruct Hr as (sample & _ & ->). eauto.
  - destruct Hr as (a & b & ->). eauto.
  - destruct Hr as (a & b & c & ->). eauto.
  - destruct Hr as (r & a & b & c & Hrepo & ->). eauto.
  - destruct Hr as (a & b & c & d & ->). eauto.
  - destruct Hr as (r & Hrepo & ->). eauto.
Qed.

End Invocations.

(** ** When a missing key is found *)

Section Late_errors.

Context {rt : Runtime}.

Lemma exec_unresolved_at config l w r e :
  exec config l w r ->
  res r = Raise e -> (forall inv, e <> StageFailure inv) ->
  exists s rest w',
    l = (ev_stage <$> log r) ++ s :: rest /\
    res (resolve config s w') = Raise e /\
    cwd w' = cwd w /\ original_cwd w' = original_cwd w.
Proof.
  induction 1 as [w|s l w x w1 Hr|s l w inv w1 Hr Hx|s l w inv w1 r Hr Hx _ IH];
    simpl; intros Hres Hplain.
  - done.
  - injection Hres as ->. exists s, l, w. by rewrite Hr.
  - injection Hres as <-. by destruct (Hplain inv).
  - destruct (IH Hres Hplain) as (s' & rest & w' & -> & Hr' & Hc & Ho).
    exists s', rest, w'. split; [done|]. split; [done|].
    pose proof (resolve_keeps_cwd config s w) as Hkc.
    pose proof (resolve_keeps_original_cwd config s w) as Hko.
    rewrite Hr in Hkc, Hko. simpl in *. by rewrite Hc, Ho.
Qed.

(** X15.  The keys of a block are looked up when the block is reached,
    not before the run.  When [go] gets into the [with] block and then raises
    an exception that is not the failure of a stage, the stages invoked until
    then are all the selected stages that come before some selected stage
    [s], and the exception is the one the block of [s] raises while building
    its invocation. *)
Theorem keys_read_when_reached config w active e :
  res (prelude config w) = Ok active ->
  res (go config w) = Raise e ->
  (forall inv, e <> StageFailure inv) ->
  exists s rest,
    selected active = (ev_stage <$> log (go config w)) ++ s :: rest /\
    res (resolve config s w) = Raise e.
Proof.
  intros Hp. rewrite (go_unfold _ _ _ Hp). cbv zeta. cbn [res log].
  intros Hres Hplain.
  destruct (exec_unresolved_at _ _ _ _ _ (run_stages_exec _ _ _) Hres Hplain)
    as (s & rest & w' & Hl & Hr & Hc & Ho).
  exists s, rest. split; [exact Hl|].
  rewrite <- Hr. apply resolve_stable.
  - rewrite Hc. symmetry. apply prelude_keeps_cwd.
  - rewrite Ho. symmetry. apply prelude_keeps_original_cwd.
Qed.

End Late_errors.

(** ** Runs that go through *)

Section Complete_runs.

Context {rt : Runtime}.

Lemma run_stages_cons_Ok config s l w1 inv :
  res (resolve config s w1) = Ok inv ->
  (execute inv (final (resolve config s w1))).1 = true ->
  run_stages config (s :: l) w1 =
  let w2 := set_fs (final (resolve config s w1))
              (execute inv (final (resolve config s w1))).2 in
  Run (res (run_stages config l w2))
      (Event s inv (final (resolve config s w1)) true :: log (run_stages config l w2))
      (final (run_stages config l w2)).
Proof.
  intros Hinv Hok. cbn [run_stages]. unfold bind at 1.
  rewrite step_cases, Hinv. cbn [res final log]. rewrite Hok. reflexivity.
Qed.

Lemma run_stages_complete config w l :
  (forall s, s ∈ l ->
             exists inv, res (resolve config s w) = Ok inv /\
                         forall w', (execute inv w').1 = true) ->
  forall w1, cwd w1 = cwd w -> original_cwd w1 = original_cwd w ->
  res (run_stages config l w1) = Ok tt /\
  ev_stage <$> log (run_stages config l w1) = l.
Proof.
  induction l as [|s l IH]; intros Hall w1 Hc Ho; [done|].
  destruct (Hall s (list_elem_of_here _ _)) as (inv & Hinv & Hok).
  rewrite <- (resolve_stable config s w w1 Hc Ho) in Hinv.
  pose proof (resolve_keeps_cwd config s w1) as Hkc.
  pose proof (resolve_keeps_original_cwd config s w1) as Hko.
  simpl in Hkc, Hko.
  rewrite (run_stages_cons_Ok config s l w1 inv Hinv (Hok _)). cbv zeta.
  cbn [res log].
  destruct (IH (fun s' Hs' => Hall s' (list_elem_of_further _ _ _ Hs'))
              (set_fs (final (resolve config s w1))
                 (execute inv (final (resolve config s w1))).2))
    as [Hres Hlog]; [by rewrite <- Hc|by rewrite <- Ho|].
  split; [exact Hres|]. rewrite fmap_cons. cbn [ev_stage]. by rewrite Hlog.
Qed.

(** X16.  A run goes through when nothing stands in its way: if the lines
    before the [with] get through, every selected block can build its
    invocation from the configuration, and those invocations succeed, then
    [go] invokes every selected stage, in the order of the program, and
    returns normally. *)
Theorem complete_run config w active :
  res (prelude config w) = Ok active ->
  (forall s, s ∈ selected active ->
             exists inv, res (resolve config s w) = Ok inv /\
                         forall w', (execute inv w').1 = true) ->
  res (go config w) = Ok tt /\
  ev_stage <$> log (go config w) = selected active.
Proof.
  intros Hp Hall. rewrite (go_unfold _ _ _ Hp). cbv zeta. cbn [res log].
  apply (run_stages_complete config w (selected active) Hall).
  - apply prelude_keeps_cwd.
  - apply prelude_keeps_original_cwd.
Qed.

End Complete_runs.

(** ** The files [go] writes *)

Section Files_written.

Context {rt : Runtime}.

(** The files a block leaves: the training block puts its one file, the
    others write nothing. *)
Lemma resolve_files config s w :
  files (fs (final (resolve config s w))) =
  if decide (s = TrainRandomForest)
  then <[PosixPath.abspath (cwd w) "rf_config.json" := rf_text config]> (files (fs w))
  else files (fs w).
Proof.
  case_decide as Hs.
  - subst. by rewrite train_final.
  - by rewrite (resolve_keeps_world config s Hs w).
Qed.

Lemma exec_files config l w r :
  (forall inv w', (execute inv w').2 = fs w') ->
  exec config l w r ->
  let path := PosixPath.abspath (cwd w) "rf_config.json" in
  dirs (fs (final r)) = dirs (fs w) /\
  (forall p, p <> path -> files (fs (final r)) !! p = files (fs w) !! p) /\
  (files (fs w) !! path = Some (rf_text config) ->
   files (fs (final r)) !! path = Some (rf_text config)) /\
  (forall e, e ∈ log r -> ev_stage e = TrainRandomForest ->
             files (fs (final r)) !! path = Some (rf_text config)).
Proof.
  intros Hquiet. cbv zeta.
  induction 1 as [w|s l w e w1 Hr|s l w inv w1 Hr Hx|s l w inv w1 r Hr Hx _ IH].
  - simpl. repeat split; try done. by intros e He%elem_of_nil.
  - pose proof (resolve_files config s w) as Hf.
    pose proof (resolve_keeps_dirs config s w) as Hd.
    rewrite Hr in Hf, Hd. simpl in *. rewrite Hf.
    split; [done|]. split; [|split].
    + intros p Hp. case_decide; [by rewrite lookup_insert_ne|done].
    + intros Hw. case_decide; [apply lookup_insert_eq|done].
    + by intros x Hx%elem_of_nil.
  - pose proof (resolve_files config s w) as Hf.
    pose proof (resolve_keeps_dirs config s w) as Hd.
    rewrite Hr in Hf, Hd. simpl in *. rewrite Hquiet, Hf.
    split; [done|]. split; [|split].
    + intros p Hp. case_decide; [by rewrite lookup_insert_ne|done].
    + intros Hw. case_decide; [apply lookup_insert_eq|done].
    + intros x ->%list_elem_of_singleton Hs. simpl in Hs. subst.
      rewrite decide_True by done. apply lookup_insert_eq.
  - pose proof (resolve_files config s w) as Hf.
    pose proof (resolve_keeps_dirs config s w) as Hd.
    pose proof (resolve_keeps_cwd config s w) as Hc.
    rewrite Hr in Hf, Hd, Hc. simpl in *.
    rewrite Hquiet, Hc in IH. destruct IH as (IHd & IHo & IHk & IHe).
    split; [by rewrite IHd|]. split; [|split].
    + intros p Hp. rewrite (IHo p Hp), Hf.
      case_decide; [by rewrite lookup_insert_ne|done].
    + intros Hw. apply IHk. rewrite Hf.
      case_decide; [apply lookup_insert_eq|done].
    + intros x [->|Hin]%elem_of_cons Hs; [|by apply (IHe x)].
      simpl in Hs. subst. apply IHk. rewrite Hf.
      rewrite decide_True by done. apply lookup_insert_eq.
Qed.

Lemma rmtree_dirs_outside d f p :
  PosixPath.inside d p = false -> p ∈ dirs (rmtree d f) <-> p ∈ dirs f.
Proof. intros Hout. unfold rmtree. simpl. rewrite elem_of_filter. tauto. Qed.

(** X17.  Apart from what its logging may write, the one file [go] itself
    ever writes is [rf_config.json] in the working directory: in a run that
    selects none of the three blocks that log (download, basic_cleaning,
    data_check), when the invoked stages leave the file system alone, every
    other file outside the scratch directory is after the run as it was
    before, whatever the outcome, and so is every directory outside the
    scratch directory. *)
Theorem go_writes_one_file config w active :
  res (prelude config w) = Ok active ->
  (forall s, s ∈ selected active ->
             s = DataSplit \/ s = TrainRandomForest \/ s = TestRegressionModel) ->
  (forall inv w', (execute inv w').2 = fs w') ->
  let tmp_dir := mkdtemp (final (prelude config w)) in
  (forall p, PosixPath.inside tmp_dir p = false ->
             p <> PosixPath.abspath (cwd w) "rf_config.json" ->
             files (fs (final (go config w))) !! p = files (fs w) !! p) /\
  (forall d, PosixPath.inside tmp_dir d = false ->
             d ∈ dirs (fs (final (go config w))) <-> d ∈ dirs (fs w)).
Proof.
  intros Hp _ Hquiet tmp_dir. rewrite (go_unfold _ _ _ Hp). cbv zeta.
  cbn [final leave set_fs fs]. fold tmp_dir.
  destruct (exec_files config _ _ _ Hquiet
              (run_stages_exec config (selected active)
                 (enter tmp_dir (final (prelude config w)))))
    as (Hd & Ho & _ & _).
  cbn [enter set_fs cwd fs files dirs] in Hd, Ho.
  rewrite (prelude_keeps_cwd config w) in Ho.
  pose proof (prelude_keeps_fs config w) as Hfs. simpl in Hfs.
  split.
  - intros p Hout Hne. rewrite rmtree_files_outside by done.
    rewrite (Ho p Hne). by rewrite Hfs.
  - intros d Hout. rewrite rmtree_dirs_outside by done.
    rewrite Hd, Hfs, elem_of_union, elem_of_singleton.
    split; [|tauto]. intros [->|H]; [|done].
    by rewrite inside_self in Hout.
Qed.

(** X18.  The hyperparameter file outlives the run.  When the invoked
    stages leave the file system alone and [rf_config.json] of the working
    directory does not lie in the scratch directory, then after every run
    that invoked the training stage, whatever came after it, the file is
    there and holds the text [json.dump] wrote for
    [modeling.random_forest]. *)
Theorem hyperparameter_file_left_behind config w e :
  (forall inv w', (execute inv w').2 = fs w') ->
  e ∈ log (go config w) ->
  ev_stage e = TrainRandomForest ->
  PosixPath.inside (mkdtemp (final (prelude config w)))
    (PosixPath.abspath (cwd w) "rf_config.json") = false ->
  files (fs (final (go config w))) !! PosixPath.abspath (cwd w) "rf_config.json"
  = Some (rf_text config).
Proof.
  intros Hquiet Hin Hs Hout.
  destruct (res (prelude config w)) as [active|x] eqn:Hp.
  2:{ rewrite (go_unfold_Raise _ _ _ Hp) in Hin. by apply elem_of_nil in Hin. }
  revert Hin. rewrite (go_unfold _ _ _ Hp). cbv zeta.
  cbn [log final leave set_fs fs]. intros Hin.
  destruct (exec_files config _ _ _ Hquiet
              (run_stages_exec config (selected active)
                 (enter (mkdtemp (final (prelude config w)))
                    (final (prelude config w)))))
    as (_ & _ & _ & He).
  cbn [enter set_fs cwd] in He.
  rewrite (prelude_keeps_cwd config w) in He.
  rewrite rmtree_files_outside by done. by apply (He e).
Qed.

End Files_written.


(** ** The further properties on concrete runs *)

Lemma stages_see_run_identity_witness :
  exists e,
    log (go (rt := Demo.rt_ok) (Demo.config "all") Demo.w0) !! 3%nat = Some e /\
    environ (ev_world e) !! "WANDB_PROJECT" = Some "nyc_airbnb" /\
    environ (ev_world e) !! "WANDB_RUN_GROUP" = Some "development".
Proof.
  assert (exists e,
    log (go (rt := Demo.rt_ok) (Demo.config "all") Demo.w0) !! 3%nat = Some e)
    as (e & He).
  { vm_compute. eexists. reflexivity. }
  exists e. split; [exact He|].
  destruct (stages_see_run_identity (rt := Demo.rt_ok) (Demo.config "all") Demo.w0 e)
    as (p & x & Hp & Hx & H1 & H2); [by eapply list_elem_of_lookup_2|].
  injection Hp as <-. injection Hx as <-. by split.
Defined.

Lemma invocation_fixed_at_start_witness :
  exists e,
    log (go (rt := Demo.rt_ok) (Demo.config "all") Demo.w0) !! 4%nat = Some e /\
    ev_stage e = TrainRandomForest /\
    ev_inv e = Demo.train_invocation.
Proof.
  assert (exists e,
    log (go (rt := Demo.rt_ok) (Demo.config "all") Demo.w0) !! 4%nat = Some e /\
    ev_stage e = TrainRandomForest) as (e & He & Hs).
  { vm_compute. eexists. split; reflexivity. }
  exists e. split; [exact He|]. split; [exact Hs|].
  destruct (invocation_fixed_at_start (rt := Demo.rt_ok) (Demo.config "all") Demo.w0 e)
    as [Hr _]; [by eapply list_elem_of_lookup_2|].
  rewrite Hs in Hr. by injection Hr as <-.
Defined.

Lemma names_exported_in_turn_witness :
  go (rt := Demo.rt_ok) Small.nameless Demo.w0 =
  Run (Raise (KeyError "experiment_name")) []
      (World (<["WANDB_PROJECT" := "nyc_airbnb"]> ∅)
             "/home/user/project/outputs/run1" "/home/user/project"
             (fs Demo.w0)).
Proof.
  destruct (names_exported_in_turn (rt := Demo.rt_ok) Small.nameless Demo.w0)
    as [_ H].
  apply (H "nyc_airbnb"); [reflexivity|reflexivity|]. intros x. discriminate.
Defined.



Lemma only_selected_keys_read_witness :
  go (rt := Demo.rt_ok) (Small.config "download") Demo.w0
  = go (rt := Demo.rt_ok) (Demo.config "download") Demo.w0.
Proof.
  apply (only_selected_keys_read (rt := Demo.rt_ok) (Demo.config "download")
           (Small.config "download") Demo.w0 (VStr "download") ["download"]);
    try reflexivity.
  intros s a b Hs Hab.
  change (selected ["download"]) with [Download] in Hs.
  apply list_elem_of_singleton in Hs as ->.
  apply list_elem_of_singleton in Hab as [= -> ->]. reflexivity.
Defined.

Lemma training_file_truncated_witness :
  resolve (rt := Demo.rt_ok) (Small.config "train_random_forest") TrainRandomForest
    Demo.w_train
  = Run (Raise (KeyError "modeling")) [] (put Demo.rf_config "" Demo.w_train).
Proof.
  apply (training_file_truncated (rt := Demo.rt_ok)
           (Small.config "train_random_forest") Demo.w_train).
  intros items. discriminate.
Defined.

Lemma training_file_partial_witness :
  exists text,
    resolve (rt := Demo.rt_ok) Small.nested_forest TrainRandomForest Demo.w0
    = Run (Raise TypeError) [] (put Demo.rf_config text Demo.w0) /\
    String.length text = 32%nat.
Proof.
  eexists. split.
  - eapply (training_file_partial (rt := Demo.rt_ok) Small.nested_forest Demo.w0);
      reflexivity.
  - reflexivity.
Defined.

Lemma directive_of_names_witness :
  select_steps (VStr "data_split,download") = Ok ["data_split"; "download"].
Proof.
  apply (directive_of_names ["data_split"; "download"]);
    [done|by repeat constructor|discriminate].
Defined.

Lemma artifacts_chain_witness :
  exists e1 e2,
    log (go (rt := Demo.rt_ok) (Demo.config "all") Demo.w0) !! 4%nat = Some e1 /\
    log (go (rt := Demo.rt_ok) (Demo.config "all") Demo.w0) !! 5%nat = Some e2 /\
    exists name,
      parameter (ev_inv e1) "output_artifact" = Some (VStr name) /\
      parameter (ev_inv e2) "mlflow_model" = Some (VStr (name +:+ ":prod")).
Proof.
  assert (exists e1 e2,
    log (go (rt := Demo.rt_ok) (Demo.config "all") Demo.w0) !! 4%nat = Some e1 /\
    log (go (rt := Demo.rt_ok) (Demo.config "all") Demo.w0) !! 5%nat = Some e2 /\
    ev_stage e1 = TrainRandomForest /\ ev_stage e2 = TestRegressionModel)
    as (e1 & e2 & H1 & H2 & Hs1 & Hs2).
  { vm_compute. eexists _, _. repeat split; reflexivity. }
  exists e1, e2. split; [exact H1|]. split; [exact H2|].
  pose proof (artifacts_chain (rt := Demo.rt_ok) (Demo.config "all") Demo.w0 e1 e2
                (list_elem_of_lookup_2 _ _ _ H1) (list_elem_of_lookup_2 _ _ _ H2))
    as H.
  rewrite Hs1, Hs2 in H. exact H.
Defined.

Lemma stage_targets_witness :
  exists e parameters,
    log (go (rt := Demo.rt_ok) (Demo.config "all") Demo.w0) !! 2%nat = Some e /\
    ev_inv e = MlflowRun "/home/user/project/src/data_check" "main" parameters.
Proof.
  assert (exists e,
    log (go (rt := Demo.rt_ok) (Demo.config "all") Demo.w0) !! 2%nat = Some e /\
    ev_stage e = DataCheck) as (e & He & Hs).
  { vm_compute. eexists. split; reflexivity. }
  pose proof (stage_targets (rt := Demo.rt_ok) (Demo.config "all") Demo.w0 e
                (list_elem_of_lookup_2 _ _ _ He)) as H.
  rewrite Hs in H. destruct H as (parameters & H).
  exists e, parameters. split; [exact He|]. rewrite H. reflexivity.
Defined.

Lemma keys_read_when_reached_witness :
  res (go (rt := Demo.rt_ok) (Small.config "download,basic_cleaning") Demo.w0)
  = Raise (KeyError "min_price") /\
  exists rest,
    [Download; BasicCleaning]
    = (ev_stage <$> log (go (rt := Demo.rt_ok)
                           (Small.config "download,basic_cleaning") Demo.w0))
      ++ BasicCleaning :: rest.
Proof.
  split; [reflexivity|].
  destruct (keys_read_when_reached (rt := Demo.rt_ok)
              (Small.config "download,basic_cleaning") Demo.w0
              ["download"; "basic_cleaning"] (KeyError "min_price"))
    as (s & rest & Hsel & Hr); [reflexivity|reflexivity|discriminate|].
  change (selected ["download"; "basic_cleaning"]) with [Download; BasicCleaning]
    in Hsel.
  exists rest. rewrite Hsel. do 2 f_equal.
  destruct s; try done; vm_compute in Hr; discriminate.
Defined.

Lemma complete_run_witness :
  res (go (rt := Demo.rt_ok) (Demo.config "all") Demo.w0) = Ok tt /\
  ev_stage <$> log (go (rt := Demo.rt_ok) (Demo.config "all") Demo.w0) = all_stages.
Proof.
  apply (complete_run (rt := Demo.rt_ok) (Demo.config "all") Demo.w0 _steps);
    [reflexivity|].
  intros s _. destruct s; eexists; (split; [reflexivity|done]).
Defined.

Lemma go_writes_one_file_witness :
  files (fs (final (go (rt := Demo.rt_ok)
                      (Demo.config "data_split,train_random_forest") Demo.w0)))
    !! "/home/user/project/outputs/run1/.hydra/config.yaml" = None.
Proof.
  destruct (go_writes_one_file (rt := Demo.rt_ok)
              (Demo.config "data_split,train_random_forest") Demo.w0
              ["data_split"; "train_random_forest"])
    as [H _]; [reflexivity| |done|].
  - intros s Hs.
    change (selected ["data_split"; "train_random_forest"])
      with [DataSplit; TrainRandomForest] in Hs.
    apply elem_of_cons in Hs as [->|Hs]; [by left|].
    apply list_elem_of_singleton in Hs as ->. right. by left.
  - rewrite H; [reflexivity|reflexivity|discriminate].
Defined.

Lemma hyperparameter_file_left_behind_witness :
  files (fs (final (go (rt := Demo.rt_ok) (Demo.config "all") Demo.w0)))
    !! Demo.rf_config
  = Some (json_dump (Runtime := Demo.rt_ok) Demo.random_forest).1.
Proof.
  assert (exists e,
    log (go (rt := Demo.rt_ok) (Demo.config "all") Demo.w0) !! 4%nat = Some e /\
    ev_stage e = TrainRandomForest) as (e & He & Hs).
  { vm_compute. eexists. split; reflexivity. }
  apply (hyperparameter_file_left_behind (rt := Demo.rt_ok) (Demo.config "all")
           Demo.w0 e); [done|by eapply list_elem_of_lookup_2|exact Hs|reflexivity].
Defined.
